(** * MumbleDJ, service_youtube.go: songs, playlists and skip votes

    A shallow embedding of [service_youtube.go].  Go strings are byte
    sequences and are modelled by [string]; Go's [int] and [int64] are
    64-bit and modelled by [Z] with the wrap-around written out; [float32]
    is IEEE 754 binary32, modelled by [spec_float] at precision 24 and
    maximal exponent 128; [map[string][]string] is a [gmap]; a run-time
    panic is an explicit outcome. *)

From Stdlib Require Import ZArith String Ascii List Lia Bool DecimalString.
From Stdlib Require Import Floats.SpecFloat.
From stdpp Require Import gmap strings list.

Open Scope string_scope.
Open Scope list_scope.
Open Scope Z_scope.

(** ** Outcomes of Go code *)

(** A Go computation either returns or panics with a run-time error. *)
Inductive outcome (A : Type) : Type :=
| Ret (a : A)
| Panic (msg : string).
Arguments Ret {A} a.
Arguments Panic {A} msg.

(** The Go idiom [(v, error)], where exactly one side is non-nil. *)
Inductive goresult (A : Type) : Type :=
| Value (a : A)
| Error (msg : string).
Arguments Value {A} a.
Arguments Error {A} msg.

Definition obind {A B} (o : outcome A) (k : A -> outcome B) : outcome B :=
  match o with
  | Ret a => k a
  | Panic msg => Panic msg
  end.

(** ** The Go library functions the file calls *)

Module GoLib.

(** [len(s)] for a string. *)
Definition len (s : string) : Z := Z.of_nat (String.length s).

(** [strings.HasPrefix(s, prefix)]. *)
Fixpoint HasPrefix (s prefix : string) {struct prefix} : bool :=
  match prefix with
  | EmptyString => true
  | String c prefix' =>
      match s with
      | EmptyString => false
      | String d s' => Ascii.eqb c d && HasPrefix s' prefix'
      end
  end.

Fixpoint index_from (s sep : string) (i : Z) : Z :=
  if HasPrefix s sep then i
  else match s with
       | EmptyString => -1
       | String _ s' => index_from s' sep (i + 1)
       end.

(** [strings.Index(s, sep)]: the index of the first instance of [sep] in
    [s], or -1 when there is none. *)
Definition Index (s sep : string) : Z := index_from s sep 0.

(** The slice expression [s[lo:hi]]; out-of-range bounds panic. *)
Definition slice (s : string) (lo hi : Z) : outcome string :=
  if (0 <=? lo) && (lo <=? hi) && (hi <=? len s)
  then Ret (substring (Z.to_nat lo) (Z.to_nat (hi - lo)) s)
  else Panic "runtime error: slice bounds out of range".

(** The errors of package strconv. *)
Inductive NumError : Type := ErrSyntax | ErrRange.

Definition digit_of (c : ascii) : option Z :=
  let n := Z.of_N (N_of_ascii c) in
  if (48 <=? n) && (n <=? 57) then Some (n - 48) else None.

Definition maxUint64 : Z := 2 ^ 64 - 1.

(** The digit loop of [strconv.ParseUint(s, 10, bitSize)], where [maxVal]
    is [1<<bitSize - 1], with the uint64 wrap-around of [n + d] written
    out.  In base 10 a letter is a digit value of 10 or more, hence a
    syntax error like any other byte.  The loop returns the range error at
    the first digit that takes the value past [maxVal], without looking at
    the bytes behind it. *)
Fixpoint parseUint_digits (maxVal : Z) (s : string) (n : Z) : Z * option NumError :=
  match s with
  | EmptyString => (n, None)
  | String c s' =>
      match digit_of c with
      | None => (0, Some ErrSyntax)
      | Some d =>
          if n >=? maxUint64 / 10 + 1 then (maxVal, Some ErrRange)
          else
            let n10 := n * 10 in
            let n1 := (n10 + d) mod 2 ^ 64 in
            if (n1 <? n10) || (n1 >? maxVal) then (maxVal, Some ErrRange)
            else parseUint_digits maxVal s' n1
      end
  end.

(** [strconv.ParseUint(s, 10, bitSize)]. *)
Definition ParseUint10 (bitSize : Z) (s : string) : Z * option NumError :=
  match s with
  | EmptyString => (0, Some ErrSyntax)
  | _ => parseUint_digits (2 ^ bitSize - 1) s 0
  end.

(** [strconv.ParseInt(s, 10, 32)]: the value and the error.  The sign is
    picked off and the rest goes to [ParseUint] with the same bit size.  On
    a syntax error the value is 0; on a range error it is the nearest
    int32. *)
Definition ParseInt10_32 (s : string) : Z * option NumError :=
  match s with
  | EmptyString => (0, Some ErrSyntax)
  | String c s' =>
      let neg := Ascii.eqb c "-" in
      let body := if Ascii.eqb c "+" || neg then s' else s in
      match ParseUint10 32 body with
      | (_, Some ErrSyntax) => (0, Some ErrSyntax)
      | (un, _) =>
          let cutoff := 2 ^ 31 in
          if negb neg && (un >=? cutoff) then (cutoff - 1, Some ErrRange)
          else if neg && (un >? cutoff) then (- cutoff, Some ErrRange)
          else (if neg then - un else un, None)
      end
  end.

(** The verb [%d] of package fmt, and [strconv.Itoa]. *)
Definition Itoa (n : Z) : string := NilZero.string_of_int (Z.to_int n).

(** Signed 64-bit wrap-around. *)
Definition wrap64 (z : Z) : Z := (z + 2 ^ 63) mod 2 ^ 64 - 2 ^ 63.

(** [float32]. *)
Definition float32 : Type := spec_float.

(** The conversion [float32(n)] of an integer, rounding to nearest even. *)
Definition float32_of_int (n : Z) : float32 := binary_normalize 24 128 n 0 false.

(** [x / y] on float32, as the gc toolchain compiles it: the IEEE 754
    quotient, with no run-time panic; a zero divisor gives an infinity or
    a NaN. *)
Definition f32_div (x y : float32) : float32 := SFdiv 24 128 x y.

(** [x >= y] on float32; false as soon as one side is a NaN. *)
Definition f32_ge (x y : float32) : bool := SFleb y x.

End GoLib.
Import GoLib.

(** ** The duration of a video *)

Record Duration : Type := mkDuration {
  minutes : Z;
  seconds : Z;
  totalSeconds : Z;
  durationString : string
}.

(** Lines 56-59 of [NewYouTubeSong], textually repeated at lines 286-289 of
    [NewYouTubePlaylist]: the errors of both [ParseInt] calls are
    discarded, the two slice expressions may panic. *)
Definition parseDuration (duration : string) : outcome Duration :=
  obind (slice duration 2 (Index duration "M")) (fun ms =>
  let minutes := fst (ParseInt10_32 ms) in
  obind (slice duration (Index duration "M" + 1) (len duration - 1)) (fun ss =>
  let seconds := fst (ParseInt10_32 ss) in
  let totalSeconds := wrap64 (minutes * 60 + seconds) in
  let durationString := Itoa minutes +:+ ":" +:+ Itoa seconds in
  Ret (mkDuration minutes seconds totalSeconds durationString))).

(** ** Data *)

(** A pointer to a [YouTubePlaylist]: an address in the store of
    allocated playlists. *)
Definition ptr : Type := nat.

(** The struct [YouTubePlaylist] (fields [id] and [title]). *)
Record YouTubePlaylist : Type := mkPlaylist {
  playlist_id : string;
  playlist_title : string
}.

(** The struct [YouTubeSong]; [playlist] is [None] for a nil pointer. *)
Record YouTubeSong : Type := mkSong {
  submitter : string;
  title : string;
  id : string;
  filename : string;
  duration : string;
  thumbnail : string;
  skippers : list string;
  playlist : option ptr;
  dontSkip : bool
}.

(** The part of [dj.conf.General] the file reads. *)
Record Config : Type := mkConfig {
  MaxSongDuration : Z;
  SkipRatio : float32;
  PlaylistSkipRatio : float32
}.

(** A [*jsonq.JsonQuery]: every call site discards the error and keeps
    the value the query returns, so a response is modelled by the value of
    its [String] and [Int] queries at each path. *)
Record JsonQuery : Type := mkJsonQuery {
  jqString : list string -> string;
  jqInt : list string -> Z
}.

(** What [http.Get] gives for a URL: a transport error, or a status code
    with the decoded body. *)
Inductive HttpResponse : Type :=
| TransportError
| Response (StatusCode : Z) (body : JsonQuery).

(** The outside world: the provider and the process environment. *)
Record Env : Type := mkEnv {
  http_Get : string -> HttpResponse;
  YOUTUBE_API_KEY : string
}.

(** The process state the file touches: the global [dj] (configuration,
    the songs handed to [dj.queue.AddSong] in call order, the map
    [dj.playlistSkips]), the store of allocated playlists, and the URLs
    requested so far. *)
Record State : Type := mkState {
  conf : Config;
  queue : list YouTubeSong;
  playlistSkips : gmap string (list string);
  playlists : list YouTubePlaylist;
  requests : list string
}.

(** ** The monad of Go code over the process state *)

Definition Go (A : Type) : Type := State -> outcome A * State.

Definition ret {A} (a : A) : Go A := fun st => (Ret a, st).

Definition bind {A B} (m : Go A) (k : A -> Go B) : Go B :=
  fun st =>
    match m st with
    | (Ret a, st') => k a st'
    | (Panic msg, st') => (Panic msg, st')
    end.

Definition lift {A} (o : outcome A) : Go A := fun st => (o, st).

Definition gets {A} (f : State -> A) : Go A := fun st => (Ret (f st), st).

Definition modify (f : State -> State) : Go unit := fun st => (Ret tt, f st).

Notation "x <- m ;; k" := (bind m (fun x => k))
  (at level 100, m at next level, right associativity).
Notation "m ;;; k" := (bind m (fun _ => k))
  (at level 100, right associativity).

(** [dj.queue.AddSong(song)]: the queue is declared outside this file; the
    model records the songs it is handed, in order. *)
Definition AddSong (song : YouTubeSong) : Go unit :=
  modify (fun st => mkState (conf st) (queue st ++ [song]) (playlistSkips st)
                            (playlists st) (requests st)).

(** [&YouTubePlaylist{...}]: a fresh address. *)
Definition new_playlist (p : YouTubePlaylist) : Go ptr :=
  fun st => (Ret (length (playlists st)),
             mkState (conf st) (queue st) (playlistSkips st)
                     (playlists st ++ [p]) (requests st)).

Definition set_playlistSkips (m : gmap string (list string)) : Go unit :=
  modify (fun st => mkState (conf st) (queue st) m (playlists st) (requests st)).

(** ** YouTube API *)

(** [PerformGetRequest]: a transport error, a 403 and any other non-200
    status are three distinct errors; a 200 gives the decoded body. *)
Definition PerformGetRequest (env : Env) (url : string) : Go (goresult JsonQuery) :=
  fun st =>
    let st' := mkState (conf st) (queue st) (playlistSkips st) (playlists st)
                       (requests st ++ [url]) in
    match http_Get env url with
    | Response code jq =>
        if code =? 200 then (Ret (Value jq), st')
        else if code =? 403 then (Ret (Error "Invalid API key supplied."), st')
        else (Ret (Error "Invalid YouTube ID supplied."), st')
    | TransportError =>
        (Ret (Error "An error occurred while receiving HTTP GET response."), st')
    end.

Definition videoURL (key id : string) : string :=
  "https://www.googleapis.com/youtube/v3/videos?part=snippet,contentDetails&id="
  +:+ id +:+ "&key=" +:+ key.

Definition playlistURL (key id : string) : string :=
  "https://www.googleapis.com/youtube/v3/playlists?part=snippet&id="
  +:+ id +:+ "&key=" +:+ key.

Definition playlistItemsURL (key id : string) : string :=
  "https://www.googleapis.com/youtube/v3/playlistItems?part=snippet&maxResults=25&playlistId="
  +:+ id +:+ "&key=" +:+ key.

Definition videoDurationURL (key videoID : string) : string :=
  "https://www.googleapis.com/youtube/v3/videos?part=contentDetails&id="
  +:+ videoID +:+ "&key=" +:+ key.

(** The test of lines 61 and 291. *)
Definition withinMaxDuration (c : Config) (totalSeconds : Z) : bool :=
  (MaxSongDuration c =? 0) || (totalSeconds <=? MaxSongDuration c).

(** ** YouTube song *)

(** [NewYouTubeSong]; the [playlist] argument is not used by the body,
    which stores nil. *)
Definition NewYouTubeSong (env : Env) (user id : string) (playlist : option ptr)
  : Go (goresult YouTubeSong) :=
  r <- PerformGetRequest env (videoURL (YOUTUBE_API_KEY env) id) ;;
  match r with
  | Error err => ret (Error err)
  | Value apiResponse =>
      let title := jqString apiResponse ["items"; "0"; "snippet"; "title"] in
      let thumbnail :=
        jqString apiResponse ["items"; "0"; "snippet"; "thumbnails"; "high"; "url"] in
      let duration := jqString apiResponse ["items"; "0"; "contentDetails"; "duration"] in
      d <- lift (parseDuration duration) ;;
      c <- gets conf ;;
      if withinMaxDuration c (totalSeconds d) then
        let song := mkSong user title id (id +:+ ".m4a") (durationString d)
                           thumbnail [] None false in
        AddSong song ;;;
        ret (Value song)
      else ret (Error "Song exceeds the maximum allowed duration.")
  end.

(** [for _, user := range skippers { if username == user ... }]. *)
Fixpoint has_skipped (username : string) (skippers : list string) : bool :=
  match skippers with
  | [] => false
  | user :: rest => if String.eqb username user then true else has_skipped username rest
  end.

(** [append(skippers[:i], skippers[i+1:]...)] at the first [i] whose entry
    is [username]; [None] when the loop finds none. *)
Fixpoint remove_first (username : string) (skippers : list string)
  : option (list string) :=
  match skippers with
  | [] => None
  | user :: rest =>
      if String.eqb username user then Some rest
      else match remove_first username rest with
           | Some rest' => Some (user :: rest')
           | None => None
           end
  end.

Definition set_skippers (s : YouTubeSong) (l : list string) : YouTubeSong :=
  mkSong (submitter s) (title s) (id s) (filename s) (duration s) (thumbnail s)
         l (playlist s) (dontSkip s).

(** [(s *YouTubeSong) AddSkip]: the song after the call, and the error
    ([None] for nil). *)
Definition YouTubeSong_AddSkip (s : YouTubeSong) (username : string)
  : YouTubeSong * option string :=
  if has_skipped username (skippers s)
  then (s, Some "This user has already skipped the current song.")
  else (set_skippers s (skippers s ++ [username]), None).

(** [(s *YouTubeSong) RemoveSkip]. *)
Definition YouTubeSong_RemoveSkip (s : YouTubeSong) (username : string)
  : YouTubeSong * option string :=
  match remove_first username (skippers s) with
  | Some l => (set_skippers s l, None)
  | None => (s, Some "This user has not skipped the song.")
  end.

(** [(s *YouTubeSong) SkipReached]. *)
Definition YouTubeSong_SkipReached (s : YouTubeSong) (channelUsers : Z) : Go bool :=
  c <- gets conf ;;
  if f32_ge (f32_div (float32_of_int (Z.of_nat (length (skippers s))))
                     (float32_of_int channelUsers))
            (SkipRatio c)
  then ret true
  else ret false.

(** [(s *YouTubeSong) Playlist]: [return *s.playlist]. *)
Definition YouTubeSong_Playlist (s : YouTubeSong) : Go YouTubePlaylist :=
  match playlist s with
  | None => lift (Panic "runtime error: invalid memory address or nil pointer dereference")
  | Some p =>
      st <- gets playlists ;;
      match st !! p with
      | Some pl => ret pl
      | None => lift (Panic "dangling pointer")
      end
  end.

Definition YouTubeSong_Filename (s : YouTubeSong) : string := filename s.

Definition YouTubeSong_ID (s : YouTubeSong) : string := id s.

(** ** YouTube playlist *)

(** The body of the loop of [NewYouTubePlaylist], run for the indices
    [indices]; [apiResponse] is the function's one variable of that name, which
    line 282 assigns.  The composite literal of line 292 names no
    [filename], which is therefore the zero value.  The result is
    [Some err] when the loop leaves the function by [return nil, err]. *)
Fixpoint playlist_loop (env : Env) (user : string) (playlist : ptr)
  (indices : list Z) (apiResponse : JsonQuery) : Go (option string) :=
  match indices with
  | [] => ret None
  | i :: rest =>
      let index := Itoa i in
      let videoTitle := jqString apiResponse ["items"; index; "snippet"; "title"] in
      let videoID :=
        jqString apiResponse ["items"; index; "snippet"; "resourceId"; "videoId"] in
      let videoThumbnail :=
        jqString apiResponse ["items"; index; "snippet"; "thumbnails"; "high"; "url"] in
      r <- PerformGetRequest env (videoDurationURL (YOUTUBE_API_KEY env) videoID) ;;
      match r with
      | Error err => ret (Some err)
      | Value apiResponse =>
          let videoDuration :=
            jqString apiResponse ["items"; "0"; "contentDetails"; "duration"] in
          d <- lift (parseDuration videoDuration) ;;
          c <- gets conf ;;
          (if withinMaxDuration c (totalSeconds d) then
             AddSong (mkSong user videoTitle videoID EmptyString (durationString d)
                             videoThumbnail [] (Some playlist) false)
           else ret tt) ;;;
          playlist_loop env user playlist rest apiResponse
      end
  end.

(** The clamp of lines 267-270. *)
Definition clampNumVideos (numVideos : Z) : Z :=
  if numVideos >? 25 then 25 else numVideos.

(** [NewYouTubePlaylist]: the result is the pointer to the new playlist. *)
Definition NewYouTubePlaylist (env : Env) (user id : string) : Go (goresult ptr) :=
  r <- PerformGetRequest env (playlistURL (YOUTUBE_API_KEY env) id) ;;
  match r with
  | Error err => ret (Error err)
  | Value apiResponse =>
      let title := jqString apiResponse ["items"; "0"] in
      playlist <- new_playlist (mkPlaylist id title) ;;
      r <- PerformGetRequest env (playlistItemsURL (YOUTUBE_API_KEY env) id) ;;
      match r with
      | Error err => ret (Error err)
      | Value apiResponse =>
          let numVideos := clampNumVideos (jqInt apiResponse ["pageInfo"; "totalResults"]) in
          e <- playlist_loop env user playlist (seqZ 0 numVideos) apiResponse ;;
          match e with
          | Some err => ret (Error err)
          | None => ret (Value playlist)
          end
      end
  end.

(** [dj.playlistSkips[p.id]]: a missing key reads as the nil slice. *)
Definition skippers_of (m : gmap string (list string)) (pid : string) : list string :=
  default [] (m !! pid).

(** [(p *YouTubePlaylist) AddSkip]. *)
Definition YouTubePlaylist_AddSkip (p : YouTubePlaylist) (username : string)
  : Go (option string) :=
  m <- gets playlistSkips ;;
  if has_skipped username (skippers_of m (playlist_id p))
  then ret (Some "This user has already skipped the current song.")
  else
    set_playlistSkips
      (<[playlist_id p := skippers_of m (playlist_id p) ++ [username]]> m) ;;;
    ret None.

(** [(p *YouTubePlaylist) RemoveSkip]. *)
Definition YouTubePlaylist_RemoveSkip (p : YouTubePlaylist) (username : string)
  : Go (option string) :=
  m <- gets playlistSkips ;;
  match remove_first username (skippers_of m (playlist_id p)) with
  | Some l => set_playlistSkips (<[playlist_id p := l]> m) ;;; ret None
  | None => ret (Some "This user has not skipped the song.")
  end.

(** [(p *YouTubePlaylist) DeleteSkippers]. *)
Definition YouTubePlaylist_DeleteSkippers (p : YouTubePlaylist) : Go unit :=
  m <- gets playlistSkips ;;
  set_playlistSkips (delete (playlist_id p) m).

(** [(p *YouTubePlaylist) SkipReached]. *)
Definition YouTubePlaylist_SkipReached (p : YouTubePlaylist) (channelUsers : Z)
  : Go bool :=
  m <- gets playlistSkips ;;
  c <- gets conf ;;
  if f32_ge (f32_div (float32_of_int (Z.of_nat (length (skippers_of m (playlist_id p)))))
                     (float32_of_int channelUsers))
            (PlaylistSkipRatio c)
  then ret true
  else ret false.

(** ** Names of the error conditions *)

Definition DuplicateVote : string := "This user has already skipped the current song.".
Definition NoSuchVote : string := "This user has not skipped the song.".
Definition DurationExceeded : string := "Song exceeds the maximum allowed duration.".
Definition InvalidCredentials : string := "Invalid API key supplied.".
Definition InvalidReference : string := "Invalid YouTube ID supplied.".
Definition NilDereference : string :=
  "runtime error: invalid memory address or nil pointer dereference".
Definition SliceBounds : string := "runtime error: slice bounds out of range".

(** The state after one more request has been issued. *)
Definition requested (st : State) (url : string) : State :=
  mkState (conf st) (queue st) (playlistSkips st) (playlists st) (requests st ++ [url]).

(** The state after one more song has been registered. *)
Definition registered (st : State) (song : YouTubeSong) : State :=
  mkState (conf st) (queue st ++ [song]) (playlistSkips st) (playlists st) (requests st).

(** The state with another map of playlist skippers. *)
Definition with_playlistSkips (st : State) (m : gmap string (list string)) : State :=
  mkState (conf st) (queue st) m (playlists st) (requests st).

(** ** Vocabulary of the statements *)

(** The bytes of a string. *)
Definition bytes (s : string) : list ascii := list_ascii_of_string s.

(** A string made of two prefix bytes, a minutes field [ms], the byte
    [M], a seconds field [ss] and one last byte [t]. *)
Definition shaped (p1 p2 : ascii) (ms ss : string) (t : ascii) : string :=
  String p1 (String p2 (ms +:+ String "M" (ss +:+ String t EmptyString))).

(** The provider's encoding of [m] minutes and [s] seconds in decimal,
    behind a two-byte prefix and before the terminator [t]. *)
Definition encode (p1 p2 : ascii) (m s : Z) (t : ascii) : string :=
  shaped p1 p2 (Itoa m) (Itoa s) t.

(** The song [NewYouTubeSong] builds from a response. *)
Definition single_song (user id : string) (jq : JsonQuery) (d : Duration) : YouTubeSong :=
  mkSong user (jqString jq ["items"; "0"; "snippet"; "title"]) id (id +:+ ".m4a")
         (durationString d)
         (jqString jq ["items"; "0"; "snippet"; "thumbnails"; "high"; "url"])
         [] None false.

(** What one pass of the loop of [NewYouTubePlaylist] has in hand when it
    reaches the test of line 291. *)
Record Item : Type := mkItem {
  videoTitle : string;
  videoID : string;
  videoThumbnail : string;
  videoDuration : Duration
}.

(** The items the loop reads over the indices, when every per-item
    request is answered with status 200 and every duration parses without
    a fault; [None] otherwise.  Each pass reads title, ID and thumbnail
    from the response held by [apiResponse] at that moment. *)
Fixpoint items_read (env : Env) (indices : list Z) (apiResponse : JsonQuery)
  : option (list Item) :=
  match indices with
  | [] => Some []
  | i :: rest =>
      let vid := jqString apiResponse ["items"; Itoa i; "snippet"; "resourceId"; "videoId"] in
      match http_Get env (videoDurationURL (YOUTUBE_API_KEY env) vid) with
      | Response code jq =>
          if code =? 200 then
            match parseDuration (jqString jq ["items"; "0"; "contentDetails"; "duration"]) with
            | Ret d =>
                match items_read env rest jq with
                | Some items =>
                    Some (mkItem (jqString apiResponse ["items"; Itoa i; "snippet"; "title"])
                                 vid
                                 (jqString apiResponse
                                    ["items"; Itoa i; "snippet"; "thumbnails"; "high"; "url"])
                                 d :: items)
                | None => None
                end
            | Panic _ => None
            end
          else None
      | TransportError => None
      end
  end.

Definition accepted (c : Config) (it : Item) : bool :=
  withinMaxDuration c (totalSeconds (videoDuration it)).

(** The song the loop registers for an item. *)
Definition playlist_song (user : string) (p : ptr) (it : Item) : YouTubeSong :=
  mkSong user (videoTitle it) (videoID it) EmptyString
         (durationString (videoDuration it)) (videoThumbnail it) [] (Some p) false.

(** The URL of the per-item request of the loop. *)
Definition item_url (env : Env) (it : Item) : string :=
  videoDurationURL (YOUTUBE_API_KEY env) (videoID it).

(** The state after a playlist has been allocated. *)
Definition allocated (st : State) (pl : YouTubePlaylist) : State :=
  mkState (conf st) (queue st) (playlistSkips st) (playlists st ++ [pl]) (requests st).

(** The state after the songs have been registered and the URLs requested. *)
Definition advanced (st : State) (songs : list YouTubeSong) (urls : list string) : State :=
  mkState (conf st) (queue st ++ songs) (playlistSkips st) (playlists st)
          (requests st ++ urls).


(** The per-item requests of an expansion run from [st] to [st']: what the
    log has gained behind the two playlist requests.  Their number is the
    number of passes the loop began. *)
Definition item_requests (st st' : State) : list string :=
  drop (length (requests st) + 2) (requests st').


(** Is a float32 a NaN? *)
Definition is_nan (x : float32) : bool :=
  match x with
  | S754_nan => true
  | _ => false
  end.

(** ** Sample worlds *)

Module Sample.

Fixpoint assoc {A} (dflt : A) (p : list string) (l : list (list string * A)) : A :=
  match l with
  | [] => dflt
  | (q, v) :: l' => if bool_decide (p = q) then v else assoc dflt p l'
  end.

(** A response holding the given strings and integers; any other query
    gives the zero value. *)
Definition jq_of (strs : list (list string * string)) (ints : list (list string * Z))
  : JsonQuery :=
  mkJsonQuery (fun p => assoc EmptyString p strs) (fun p => assoc 0 p ints).

Definition key : string := "K".

(** 0.5 as a float32. *)
Definition half : float32 := S754_finite false 8388608 (-24).

Definition title_response : JsonQuery := jq_of [(["items"; "0"], "Mix")] [].

Definition listing_response (total : Z) : JsonQuery :=
  jq_of [ (["items"; "0"; "snippet"; "title"], "A");
          (["items"; "0"; "snippet"; "resourceId"; "videoId"], "abc");
          (["items"; "0"; "snippet"; "thumbnails"; "high"; "url"], "http://t/abc") ]
        [ (["pageInfo"; "totalResults"], total) ].

Definition video_response (d : string) : JsonQuery :=
  jq_of [ (["items"; "0"; "snippet"; "title"], "A");
          (["items"; "0"; "snippet"; "thumbnails"; "high"; "url"], "http://t/abc");
          (["items"; "0"; "contentDetails"; "duration"], d) ]
        [].

(** A provider knowing the playlist [PL], whose listing has the one video
    [abc]; [video] is its answer to both requests about that video. *)
Definition provider (video : HttpResponse) : Env :=
  mkEnv (fun url =>
           if String.eqb url (playlistURL key "PL") then Response 200 title_response
           else if String.eqb url (playlistItemsURL key "PL")
                then Response 200 (listing_response 1)
           else if String.eqb url (videoDurationURL key "abc") then video
           else if String.eqb url (videoURL key "abc") then video
           else Response 404 (jq_of [] []))
        key.

(** The same provider with a listing that reports [total] videos. *)
Definition provider_reporting (total : Z) (video : HttpResponse) : Env :=
  mkEnv (fun url =>
           if String.eqb url (playlistURL key "PL") then Response 200 title_response
           else if String.eqb url (playlistItemsURL key "PL")
                then Response 200 (listing_response total)
           else if String.eqb url (videoDurationURL key "abc") then video
           else Response 404 (jq_of [] []))
        key.

(** A listing of the two videos [abc] and [def]. *)
Definition listing_of_two : JsonQuery :=
  jq_of [ (["items"; "0"; "snippet"; "title"], "A");
          (["items"; "0"; "snippet"; "resourceId"; "videoId"], "abc");
          (["items"; "1"; "snippet"; "title"], "D");
          (["items"; "1"; "snippet"; "resourceId"; "videoId"], "def") ]
        [ (["pageInfo"; "totalResults"], 2) ].

(** A provider knowing the playlist [PL2] of those two videos, each one
    minute and one second long; any other request is answered 404. *)
Definition provider_of_two : Env :=
  mkEnv (fun url =>
           if String.eqb url (playlistURL key "PL2") then Response 200 title_response
           else if String.eqb url (playlistItemsURL key "PL2")
                then Response 200 listing_of_two
           else if String.eqb url (videoDurationURL key "abc")
                then Response 200 (video_response "PT1M1S")
           else if String.eqb url (videoDurationURL key "def")
                then Response 200 (video_response "PT1M1S")
           else Response 404 (jq_of [] []))
        key.

(** A provider answering every request with the same body: 30 listed
    videos, each one minute and one second long. *)
Definition uniform : Env :=
  mkEnv (fun _ => Response 200 (mkJsonQuery (fun _ => "PT1M1S") (fun _ => 30))) key.

Definition start (max : Z) : State :=
  mkState (mkConfig max half half) [] ∅ [] [].

Definition song_voted (l : list string) : YouTubeSong :=
  mkSong "bob" "A" "abc" "abc.m4a" "1:1" "http://t/abc" l None false.

End Sample.

(** ** The remaining methods, and sequences of calls *)

(** [(s *YouTubeSong) SetDontSkip]. *)
Definition YouTubeSong_SetDontSkip (s : YouTubeSong) (value : bool) : YouTubeSong :=
  mkSong (submitter s) (title s) (id s) (filename s) (duration s) (thumbnail s)
         (skippers s) (playlist s) value.

Definition YouTubeSong_DontSkip (s : YouTubeSong) : bool := dontSkip s.

Definition YouTubeSong_Submitter (s : YouTubeSong) : string := submitter s.

Definition YouTubeSong_Title (s : YouTubeSong) : string := title s.

Definition YouTubeSong_Duration (s : YouTubeSong) : string := duration s.

Definition YouTubeSong_Thumbnail (s : YouTubeSong) : string := thumbnail s.

Definition YouTubePlaylist_ID (p : YouTubePlaylist) : string := playlist_id p.

Definition YouTubePlaylist_Title (p : YouTubePlaylist) : string := playlist_title p.

(** A call of one of the methods that write to a song. *)
Inductive SongCall : Type :=
| CallAddSkip (username : string)
| CallRemoveSkip (username : string)
| CallSetDontSkip (value : bool).

(** The song after a call, its result dropped. *)
Definition song_call (s : YouTubeSong) (c : SongCall) : YouTubeSong :=
  match c with
  | CallAddSkip username => fst (YouTubeSong_AddSkip s username)
  | CallRemoveSkip username => fst (YouTubeSong_RemoveSkip s username)
  | CallSetDontSkip value => YouTubeSong_SetDontSkip s value
  end.

Definition song_calls (s : YouTubeSong) (cs : list SongCall) : YouTubeSong :=
  fold_left song_call cs s.

(** A call of one of the methods that write to [dj.playlistSkips]. *)
Inductive PlaylistCall : Type :=
| CallPlaylistAddSkip (p : YouTubePlaylist) (username : string)
| CallPlaylistRemoveSkip (p : YouTubePlaylist) (username : string)
| CallDeleteSkippers (p : YouTubePlaylist).

(** The ID whose votes a call works on. *)
Definition call_target (c : PlaylistCall) : string :=
  match c with
  | CallPlaylistAddSkip p _ => playlist_id p
  | CallPlaylistRemoveSkip p _ => playlist_id p
  | CallDeleteSkippers p => playlist_id p
  end.

Definition playlist_call (c : PlaylistCall) : Go unit :=
  match c with
  | CallPlaylistAddSkip p username => YouTubePlaylist_AddSkip p username ;;; ret tt
  | CallPlaylistRemoveSkip p username => YouTubePlaylist_RemoveSkip p username ;;; ret tt
  | CallDeleteSkippers p => YouTubePlaylist_DeleteSkippers p
  end.

Fixpoint playlist_calls (cs : list PlaylistCall) : Go unit :=
  match cs with
  | [] => ret tt
  | c :: cs' => playlist_call c ;;; playlist_calls cs'
  end.

(** Is a float32 at most zero?  (A NaN is not.) *)
Definition nonpositive (x : float32) : bool :=
  match x with
  | S754_nan => false
  | S754_infinity s => s
  | S754_zero _ => true
  | S754_finite s _ _ => s
  end.

(** What every song registered by an expansion through the pointer [p]
    for the submitter [user] looks like. *)
Definition expansion_song (user : string) (p : ptr) (s : YouTubeSong) : Prop :=
  submitter s = user /\ playlist s = Some p /\ skippers s = []
  /\ dontSkip s = false /\ filename s = EmptyString.

(** ** Download, Play and Delete *)

(** What [os.Stat] reports: no error, an error for which [os.IsNotExist]
    holds, or another error. *)
Inductive StatResult : Type := StatFound | StatNotExist | StatFailed.

(** The calls the three methods make outside the file, in order:
    [os.Stat], [cmd.Run] of a command, [dj.cache.CheckMaximumDirectorySize],
    [dj.audioStream.Play], [dj.client.Self.Channel.Send], [os.Remove]. *)
Inductive Effect : Type :=
| EffStat (path : string)
| EffRun (name : string) (args : list string)
| EffCheckMaximumDirectorySize
| EffPlay (path : string)
| EffSend (message : string) (recursive : bool)
| EffRemove (path : string).

(** The answers of the outside: [Run] and [os_Remove] are true for a nil
    error; [audioStream_Play] is [None] for a nil error. *)
Record System : Type := mkSystem {
  os_Stat : string -> StatResult;
  Run : string -> list string -> bool;
  audioStream_Play : string -> option string;
  os_Remove : string -> bool
}.

(** [dj.homeDir] and [dj.conf.Cache.Enabled]. *)
Record Host : Type := mkHost {
  homeDir : string;
  CacheEnabled : bool
}.

(** [(s *YouTubeSong) Download]. *)
Definition YouTubeSong_Download (host : Host) (sys : System) (s : YouTubeSong)
  : list Effect * option string :=
  let path := homeDir host +:+ "/.mumbledj/songs/" +:+ id s +:+ ".m4a" in
  match os_Stat sys path with
  | StatNotExist =>
      let args := ["--output"; "~/.mumbledj/songs/" +:+ id s +:+ ".m4a";
                   "--format"; "m4a"; "--"; id s] in
      if Run sys "youtube-dl" args then
        ([EffStat path; EffRun "youtube-dl" args]
           ++ (if CacheEnabled host then [EffCheckMaximumDirectorySize] else []),
         None)
      else ([EffStat path; EffRun "youtube-dl" args], Some "Song download failed.")
  | _ => ([EffStat path], None)
  end.

(** [(s *YouTubeSong) Delete]. *)
Definition YouTubeSong_Delete (host : Host) (sys : System) (s : YouTubeSong)
  : list Effect * option string :=
  if negb (CacheEnabled host) then
    let filePath := homeDir host +:+ "/.mumbledj/songs/" +:+ id s +:+ ".m4a" in
    match os_Stat sys filePath with
    | StatFound =>
        if os_Remove sys filePath then ([EffStat filePath; EffRemove filePath], None)
        else ([EffStat filePath; EffRemove filePath],
              Some "Error occurred while deleting audio file.")
    | _ => ([EffStat filePath], None)
    end
  else ([], None).

(** The bytes the raw string literals of [Play] are made of. *)
Definition nl : string := String "010" EmptyString.
Definition dq : string := String "034" EmptyString.

Fixpoint tabs (n : nat) : string :=
  match n with
  | O => EmptyString
  | S n' => String "009" (tabs n')
  end.

Definition line (n : nat) (text : string) : string := tabs n +:+ text +:+ nl.

Definition td (inner : string) : string :=
  "<td align=" +:+ dq +:+ "center" +:+ dq +:+ ">" +:+ inner +:+ "</td>".

(** The first three table rows, common to both literals, formatted. *)
Definition message_rows (s : YouTubeSong) : string :=
  line 5 "<tr>"
  +:+ line 6 (td ("<img src=" +:+ dq +:+ thumbnail s +:+ dq +:+ " width=150 />"))
  +:+ line 5 "</tr>"
  +:+ line 5 "<tr>"
  +:+ line 6 (td ("<b><a href=" +:+ dq +:+ "http://youtu.be/" +:+ id s +:+ dq +:+ ">"
                  +:+ title s +:+ "</a> (" +:+ duration s +:+ ")</b>"))
  +:+ line 5 "</tr>"
  +:+ line 5 "<tr>"
  +:+ line 6 (td ("Added by " +:+ submitter s))
  +:+ line 5 "</tr>".

(** [fmt.Sprintf(message, ...)] of lines 102-116. *)
Definition message_song (s : YouTubeSong) : string :=
  nl +:+ line 4 "<table>" +:+ message_rows s +:+ line 4 "</table>" +:+ tabs 3.

(** [fmt.Sprintf(message, ...)] of lines 118-135. *)
Definition message_playlist_song (s : YouTubeSong) (playlistTitle : string) : string :=
  nl +:+ line 4 "<table>" +:+ message_rows s
  +:+ line 5 "<tr>"
  +:+ line 6 (td ("From playlist " +:+ dq +:+ playlistTitle +:+ dq))
  +:+ line 5 "</tr>"
  +:+ line 4 "</table>" +:+ tabs 3.

(** [(s *YouTubeSong) Play], over the store of allocated playlists; the
    callback handed to the audio stream is not called here. *)
Definition YouTubeSong_Play (host : Host) (sys : System) (store : list YouTubePlaylist)
  (s : YouTubeSong) : list Effect * outcome unit :=
  let path := homeDir host +:+ "/.mumbledj/songs/" +:+ id s +:+ ".m4a" in
  match audioStream_Play sys path with
  | Some err => ([EffPlay path], Panic err)
  | None =>
      match playlist s with
      | None => ([EffPlay path; EffSend (message_song s) false], Ret tt)
      | Some p =>
          match store !! p with
          | Some pl =>
              ([EffPlay path;
                EffSend (message_playlist_song s (playlist_title pl)) false], Ret tt)
          | None => ([EffPlay path], Panic "dangling pointer")
          end
      end
  end.

(** The file paths an effect names. *)
Definition effect_paths (e : Effect) : list string :=
  match e with
  | EffStat path => [path]
  | EffPlay path => [path]
  | EffRemove path => [path]
  | _ => []
  end.

(** * Properties *)

(** ** Skip votes *)

Lemma has_skipped_elem_of (username : string) (l : list string) :
  has_skipped username l = bool_decide (username ∈ l).
Proof.
  induction l as [|user rest IH]; cbn [has_skipped].
  - symmetry. apply bool_decide_eq_false_2, not_elem_of_nil.
  - destruct (String.eqb_spec username user) as [->|Hne].
    + symmetry. apply bool_decide_eq_true_2, list_elem_of_here.
    + rewrite IH. apply bool_decide_ext. rewrite elem_of_cons. intuition congruence.
Qed.

Lemma playlist_AddSkip_run (p : YouTubePlaylist) (username : string) (st : State) :
  YouTubePlaylist_AddSkip p username st =
  if bool_decide (username ∈ skippers_of (playlistSkips st) (playlist_id p))
  then (Ret (Some DuplicateVote), st)
  else (Ret None,
        with_playlistSkips st
          (<[playlist_id p := skippers_of (playlistSkips st) (playlist_id p) ++ [username]]>
             (playlistSkips st))).
Proof.
  unfold YouTubePlaylist_AddSkip, bind, gets.
  rewrite has_skipped_elem_of.
  destruct (bool_decide _); reflexivity.
Qed.

(** C5. AddSkip on a song and on a playlist.  A voter already among the
    song's skippers, or already in the map entry kept under the playlist's
    ID, gets the DuplicateVote error, and the song, or the whole state, is
    unchanged.  A voter who is absent gets nil, and is appended: the song's
    skippers become the old ones followed by the voter, its other fields
    unchanged; the map entry under the ID becomes the old votes followed by
    the voter (the voter alone when the ID had no entry), the entries
    under every other ID and the rest of the state unchanged. *)
Theorem AddSkip_duplicate_or_insert :
  (forall (s : YouTubeSong) (username : string),
      (username ∈ skippers s ->
       YouTubeSong_AddSkip s username = (s, Some DuplicateVote))
      /\ (username ∉ skippers s ->
          snd (YouTubeSong_AddSkip s username) = None
          /\ skippers (fst (YouTubeSong_AddSkip s username)) = skippers s ++ [username]
          /\ fst (YouTubeSong_AddSkip s username)
             = mkSong (submitter s) (title s) (id s) (filename s) (duration s)
                      (thumbnail s) (skippers s ++ [username]) (playlist s) (dontSkip s)))
  /\
  (forall (p : YouTubePlaylist) (username : string) (st : State),
      (forall votes,
          playlistSkips st !! playlist_id p = Some votes -> username ∈ votes ->
          YouTubePlaylist_AddSkip p username st = (Ret (Some DuplicateVote), st))
      /\ (forall votes,
             playlistSkips st !! playlist_id p = Some votes \/
             (playlistSkips st !! playlist_id p = None /\ votes = []) ->
             username ∉ votes ->
             exists st',
               YouTubePlaylist_AddSkip p username st = (Ret None, st')
               /\ playlistSkips st' !! playlist_id p = Some (votes ++ [username])
               /\ (forall other, other <> playlist_id p ->
                                 playlistSkips st' !! other = playlistSkips st !! other)
               /\ conf st' = conf st /\ queue st' = queue st
               /\ playlists st' = playlists st /\ requests st' = requests st)).
Proof.
  split.
  - intros s username. unfold YouTubeSong_AddSkip. rewrite has_skipped_elem_of. split.
    + intros Hin. rewrite bool_decide_eq_true_2 by exact Hin. reflexivity.
    + intros Hout. rewrite bool_decide_eq_false_2 by exact Hout. repeat split.
  - intros p username st. split.
    + intros votes Hl Hin. rewrite playlist_AddSkip_run.
      unfold skippers_of. rewrite Hl. cbn [default].
      rewrite bool_decide_eq_true_2 by exact Hin. reflexivity.
    + intros votes Hl Hout.
      assert (E : default [] (playlistSkips st !! playlist_id p) = votes).
      { destruct Hl as [Hl|[Hl ->]]; rewrite Hl; reflexivity. }
      rewrite playlist_AddSkip_run. unfold skippers_of. rewrite E.
      rewrite bool_decide_eq_false_2 by exact Hout.
      eexists. split; [reflexivity|]. cbn [with_playlistSkips playlistSkips].
      split; [apply lookup_insert_eq|].
      split; [intros other Hne; apply lookup_insert_ne; congruence|].
      repeat split.
Qed.

Lemma AddSkip_duplicate_or_insert_witness :
  YouTubeSong_AddSkip (Sample.song_voted ["alice"]) "alice"
  = (Sample.song_voted ["alice"], Some DuplicateVote)
  /\ skippers (fst (YouTubeSong_AddSkip (Sample.song_voted ["alice"]) "bob"))
     = ["alice"; "bob"]
  /\ YouTubePlaylist_AddSkip (mkPlaylist "PL" "Mix") "alice"
       (with_playlistSkips (Sample.start 0) {["PL" := ["alice"]]})
     = (Ret (Some DuplicateVote),
        with_playlistSkips (Sample.start 0) {["PL" := ["alice"]]})
  /\ exists st',
      YouTubePlaylist_AddSkip (mkPlaylist "PL" "Mix") "bob"
        (with_playlistSkips (Sample.start 0) {["PL" := ["alice"]]})
      = (Ret None, st')
      /\ playlistSkips st' !! "PL" = Some ["alice"; "bob"].
Proof.
  destruct AddSkip_duplicate_or_insert as [Hsong Hlist].
  split.
  { apply (proj1 (Hsong (Sample.song_voted ["alice"]) "alice")).
    apply list_elem_of_here. }
  split.
  { apply (proj2 (Hsong (Sample.song_voted ["alice"]) "bob")).
    cbn [Sample.song_voted skippers]. rewrite not_elem_of_cons.
    split; [discriminate | apply not_elem_of_nil]. }
  split.
  { apply (proj1 (Hlist (mkPlaylist "PL" "Mix") "alice"
                    (with_playlistSkips (Sample.start 0) {["PL" := ["alice"]]}))
                 ["alice"]).
    - reflexivity.
    - apply list_elem_of_here. }
  destruct (proj2 (Hlist (mkPlaylist "PL" "Mix") "bob"
                     (with_playlistSkips (Sample.start 0) {["PL" := ["alice"]]}))
                  ["alice"]) as (st' & R & L & _).
  - left. reflexivity.
  - rewrite not_elem_of_cons. split; [discriminate | apply not_elem_of_nil].
  - exists st'. split; [exact R | exact L].
Defined.

(** C8. After DeleteSkippers the playlist's ID has no entry in
    [dj.playlistSkips] (its vote set reads as empty), and an AddSkip made
    afterwards through any playlist value with that ID succeeds and leaves
    a vote set holding the new voter only. *)
Theorem DeleteSkippers_then_fresh (p : YouTubePlaylist) (title' voter : string)
  (st : State) :
  let released := with_playlistSkips st (delete (playlist_id p) (playlistSkips st)) in
  YouTubePlaylist_DeleteSkippers p st = (Ret tt, released)
  /\ playlistSkips released !! playlist_id p = None
  /\ length (skippers_of (playlistSkips released) (playlist_id p)) = 0%nat
  /\ exists st',
      YouTubePlaylist_AddSkip (mkPlaylist (playlist_id p) title') voter released
      = (Ret None, st')
      /\ playlistSkips st' !! playlist_id p = Some [voter].
Proof.
  intros released.
  assert (Hnone : playlistSkips released !! playlist_id p = None)
    by (simpl; apply lookup_delete_eq).
  split; [reflexivity|]. split; [exact Hnone|].
  assert (Hnil : skippers_of (playlistSkips released) (playlist_id p) = [])
    by (unfold skippers_of; rewrite Hnone; reflexivity).
  split; [rewrite Hnil; reflexivity|].
  rewrite playlist_AddSkip_run. cbn [playlist_id]. rewrite Hnil.
  rewrite bool_decide_eq_false_2 by apply not_elem_of_nil.
  eexists. split; [reflexivity|]. simpl. apply lookup_insert_eq.
Qed.

(** ** Strings and the duration parse *)

Lemma len_String c s : len (String c s) = len s + 1.
Proof. unfold len. cbn [String.length]. lia. Qed.

Lemma len_app a b : len (a +:+ b) = len a + len b.
Proof.
  induction a as [|c a IH]; [reflexivity|].
  change (String c a +:+ b) with (String c (a +:+ b)).
  rewrite !len_String, IH. lia.
Qed.

Lemma len_nonneg s : 0 <= len s.
Proof. unfold len. lia. Qed.

Lemma index_from_cons_ne c s i :
  c <> "M"%char -> index_from (String c s) "M" i = index_from s "M" (i + 1).
Proof.
  intros Hc. cbn [index_from HasPrefix].
  destruct (Ascii.eqb_spec "M" c) as [E|_]; [congruence|]. reflexivity.
Qed.

Lemma index_from_cons_eq s i : index_from (String "M" s) "M" i = i.
Proof. reflexivity. Qed.

Lemma index_from_absent s i : "M"%char ∉ bytes s -> index_from s "M" i = -1.
Proof.
  revert i. induction s as [|c s IH]; intros i Hs; [reflexivity|].
  unfold bytes in Hs. cbn [list_ascii_of_string] in Hs.
  apply not_elem_of_cons in Hs as [Hc Hs].
  rewrite index_from_cons_ne by congruence. apply IH, Hs.
Qed.

Lemma index_from_present s i :
  "M"%char ∈ bytes s -> i <= index_from s "M" i < i + len s.
Proof.
  revert i. induction s as [|c s IH]; intros i Hs.
  - apply elem_of_nil in Hs. contradiction.
  - rewrite len_String. pose proof (len_nonneg s).
    destruct (ascii_dec c "M") as [->|Hc].
    + rewrite index_from_cons_eq. lia.
    + rewrite index_from_cons_ne by exact Hc.
      unfold bytes in Hs. cbn [list_ascii_of_string] in Hs.
      apply elem_of_cons in Hs as [Hs|Hs]; [congruence|].
      specialize (IH (i + 1) Hs). lia.
Qed.

Lemma index_from_app ms rest i :
  "M"%char ∉ bytes ms ->
  index_from (ms +:+ String "M" rest) "M" i = i + len ms.
Proof.
  revert i. induction ms as [|c ms IH]; intros i Hs.
  - change (EmptyString +:+ String "M" rest) with (String "M" rest).
    rewrite index_from_cons_eq. unfold len. simpl. lia.
  - unfold bytes in Hs. cbn [list_ascii_of_string] in Hs.
    apply not_elem_of_cons in Hs as [Hc Hs].
    change (String c ms +:+ String "M" rest) with (String c (ms +:+ String "M" rest)).
    rewrite index_from_cons_ne by congruence.
    rewrite IH by exact Hs. rewrite len_String. lia.
Qed.

Lemma substring_prefix a b : substring 0 (String.length a) (a +:+ b) = a.
Proof.
  induction a as [|c a IH].
  - destruct b; reflexivity.
  - change (String c a +:+ b) with (String c (a +:+ b)).
    cbn [String.length substring]. f_equal. exact IH.
Qed.

Lemma substring_skip a b n :
  substring (String.length a) n (a +:+ b) = substring 0 n b.
Proof.
  induction a as [|c a IH]; [reflexivity|].
  change (String c a +:+ b) with (String c (a +:+ b)).
  cbn [String.length substring]. exact IH.
Qed.

Lemma slice_middle (a m b : string) :
  slice (a +:+ m +:+ b) (len a) (len a + len m) = Ret m.
Proof.
  unfold slice. rewrite !len_app.
  pose proof (len_nonneg a). pose proof (len_nonneg m). pose proof (len_nonneg b).
  destruct (_ && _) eqn:E.
  - f_equal. unfold len. rewrite Nat2Z.id.
    replace (Z.to_nat (Z.of_nat (String.length a) + Z.of_nat (String.length m)
                       - Z.of_nat (String.length a))) with (String.length m) by lia.
    rewrite substring_skip. apply substring_prefix.
  - rewrite !andb_false_iff, !Z.leb_gt in E. lia.
Qed.

Lemma slice_bad (s : string) (lo hi : Z) :
  hi < lo -> slice s lo hi = Panic SliceBounds.
Proof.
  intros H. unfold slice.
  destruct (_ && _) eqn:E; [|reflexivity].
  rewrite !andb_true_iff, !Z.leb_le in E. lia.
Qed.

Lemma parseDuration_absent (d : string) :
  "M"%char ∉ bytes d -> parseDuration d = Panic SliceBounds.
Proof.
  intros H. unfold parseDuration, Index.
  rewrite index_from_absent by exact H.
  rewrite slice_bad by lia. reflexivity.
Qed.

Lemma append_assoc_s (a b c : string) : (a +:+ b) +:+ c = a +:+ (b +:+ c).
Proof.
  induction a as [|x a IH]; [reflexivity|].
  change (String x ((a +:+ b) +:+ c) = String x (a +:+ (b +:+ c))).
  f_equal. exact IH.
Qed.

Lemma shaped_split (p1 p2 : ascii) (ms ss : string) (t : ascii) :
  shaped p1 p2 ms ss t =
  (String p1 (String p2 ms) +:+ String "M" EmptyString) +:+ ss +:+ String t EmptyString.
Proof. unfold shaped. rewrite append_assoc_s. reflexivity. Qed.

Lemma shaped_split_minutes (p1 p2 : ascii) (ms ss : string) (t : ascii) :
  shaped p1 p2 ms ss t =
  String p1 (String p2 EmptyString) +:+ ms +:+ String "M" (ss +:+ String t EmptyString).
Proof. reflexivity. Qed.

Lemma parseDuration_shaped (p1 p2 : ascii) (ms ss : string) (t : ascii) :
  p1 <> "M"%char -> p2 <> "M"%char -> "M"%char ∉ bytes ms ->
  parseDuration (shaped p1 p2 ms ss t) =
  let m := fst (ParseInt10_32 ms) in
  let s := fst (ParseInt10_32 ss) in
  Ret (mkDuration m s (wrap64 (m * 60 + s)) (Itoa m +:+ ":" +:+ Itoa s)).
Proof.
  intros H1 H2 Hms. unfold parseDuration, Index.
  assert (Hidx : index_from (shaped p1 p2 ms ss t) "M" 0 = 2 + len ms).
  { unfold shaped. rewrite !index_from_cons_ne by assumption.
    rewrite index_from_app by exact Hms. lia. }
  rewrite Hidx.
  assert (Hlen : len (shaped p1 p2 ms ss t) = 2 + len ms + 1 + len ss + 1).
  { unfold shaped. rewrite !len_String, len_app, len_String, len_app, len_String.
    unfold len at 3. simpl. lia. }
  rewrite Hlen.
  assert (S1 : slice (shaped p1 p2 ms ss t) 2 (2 + len ms) = Ret ms).
  { rewrite shaped_split_minutes.
    change 2 with (len (String p1 (String p2 EmptyString))).
    apply slice_middle. }
  rewrite S1. cbn [obind].
  assert (S2 : slice (shaped p1 p2 ms ss t) (2 + len ms + 1) (2 + len ms + 1 + len ss + 1 - 1)
               = Ret ss).
  { rewrite shaped_split.
    replace (2 + len ms + 1) with (len (String p1 (String p2 ms) +:+ String "M" EmptyString))
      by (rewrite len_app, !len_String; unfold len at 2; simpl; lia).
    replace (len (String p1 (String p2 ms) +:+ String "M" EmptyString) + len ss + 1 - 1)
      with (len (String p1 (String p2 ms) +:+ String "M" EmptyString) + len ss) by lia.
    apply slice_middle. }
  rewrite S2. reflexivity.
Qed.

Lemma small_decimal (m : Z) :
  0 <= m < 60 ->
  ParseInt10_32 (Itoa m) = (m, None)
  /\ ("M"%char ∉ bytes (Itoa m))
  /\ (m < 10 -> String.length (Itoa m) = 1%nat).
Proof.
  intros Hm.
  assert (E : m = Z.of_nat (Z.to_nat m)) by lia.
  revert E. generalize (Z.to_nat m) as n. intros n E.
  assert (Hn : (n < 60)%nat) by lia. clear Hm. subst m.
  do 60 (destruct n as [|n];
         [ split; [reflexivity|]; split; [|intros; first [reflexivity | lia]];
           unfold bytes; vm_compute list_ascii_of_string;
           rewrite ?not_elem_of_cons; repeat split; try discriminate;
           apply not_elem_of_nil
         | ]).
  lia.
Qed.

Lemma wrap64_small (z : Z) : (- 2 ^ 63) <= z < 2 ^ 63 -> wrap64 z = z.
Proof. intros H. unfold wrap64. rewrite Z.mod_small; lia. Qed.


Example parse_PT3M5S : parseDuration "PT3M5S" = Ret (mkDuration 3 5 185 "3:5").
Proof. reflexivity. Qed.

Example parse_PT12M : parseDuration "PT12M" = Panic SliceBounds.
Proof. reflexivity. Qed.

Example parse_PT1H2M3S : parseDuration "PT1H2M3S" = Ret (mkDuration 0 3 3 "0:3").
Proof. reflexivity. Qed.

Lemma NewYouTubeSong_run (env : Env) (user id : string) (pl : option ptr)
  (st : State) (jq : JsonQuery) :
  http_Get env (videoURL (YOUTUBE_API_KEY env) id) = Response 200 jq ->
  NewYouTubeSong env user id pl st =
  let st1 := requested st (videoURL (YOUTUBE_API_KEY env) id) in
  match parseDuration (jqString jq ["items"; "0"; "contentDetails"; "duration"]) with
  | Panic msg => (Panic msg, st1)
  | Ret d =>
      if withinMaxDuration (conf st) (totalSeconds d)
      then (Ret (Value (single_song user id jq d)),
            registered st1 (single_song user id jq d))
      else (Ret (Error DurationExceeded), st1)
  end.
Proof.
  intros Hget. unfold NewYouTubeSong, bind, PerformGetRequest. rewrite Hget.
  cbn [Z.eqb Pos.eqb]. unfold lift.
  destruct (parseDuration _) as [d|msg]; [|reflexivity].
  unfold gets. cbn [conf requested].
  destruct (withinMaxDuration (conf st) (totalSeconds d)); reflexivity.
Qed.

(** C3. For minutes [m] and seconds [s] in 0..59, the parse of the encoded
    duration (two prefix bytes other than [M], [m] in decimal, [M], [s]
    in decimal, one last byte) gives [m] minutes, [s] seconds, the total
    [m*60+s] and the display string made of the decimal of [m], a colon
    and the decimal of [s]; below ten the decimal of [s] is one byte
    long, so nothing pads it. *)
Theorem parse_encode (p1 p2 t : ascii) (m s : Z)
  (Hp1 : p1 <> "M"%char) (Hp2 : p2 <> "M"%char)
  (Hm : 0 <= m <= 59) (Hs : 0 <= s <= 59) :
  parseDuration (encode p1 p2 m s t)
  = Ret (mkDuration m s (m * 60 + s) (Itoa m +:+ ":" +:+ Itoa s))
  /\ (s < 10 -> String.length (Itoa s) = 1%nat).
Proof.
  destruct (small_decimal m) as (Pm & Mm & _); [lia|].
  destruct (small_decimal s) as (Ps & _ & Ls); [lia|].
  split; [|exact Ls].
  unfold encode. rewrite parseDuration_shaped by assumption.
  cbn zeta. rewrite Pm, Ps. cbn [fst].
  rewrite wrap64_small by lia. reflexivity.
Qed.

Lemma parse_encode_witness :
  parseDuration "PT3M5S" = Ret (mkDuration 3 5 185 "3:5")
  /\ (5 < 10 -> String.length (Itoa 5) = 1%nat).
Proof.
  apply (parse_encode "P" "T" "S" 3 5); [discriminate | discriminate | lia | lia].
Defined.

Lemma parseUint_digits_nonneg (maxVal : Z) (s : string) :
  0 <= maxVal -> forall n, 0 <= n -> 0 <= fst (parseUint_digits maxVal s n).
Proof.
  intros Hmax. induction s as [|c s IH]; intros n Hn; cbn [parseUint_digits].
  - exact Hn.
  - destruct (digit_of c) as [d|]; [|cbn; lia].
    destruct (n >=? maxUint64 / 10 + 1); [exact Hmax|].
    cbv zeta.
    match goal with |- context [if ?b then _ else _] => destruct b end;
      [exact Hmax|].
    apply IH. apply Z.mod_pos_bound. lia.
Qed.

Lemma ParseInt10_32_range (s : string) :
  (- 2 ^ 31) <= fst (ParseInt10_32 s) <= 2 ^ 31 - 1.
Proof.
  unfold ParseInt10_32. destruct s as [|c s]; [cbn; lia|].
  cbv zeta.
  set (body := if (_ : bool) then s else String c s).
  assert (Hun : 0 <= fst (ParseUint10 32 body)).
  { unfold ParseUint10. destruct body; [cbn; lia|].
    apply parseUint_digits_nonneg; lia. }
  destruct (ParseUint10 32 body) as [un [[]|]]; cbn [fst] in *; [cbn; lia | |].
  - destruct (Ascii.eqb c "-"); cbn [negb andb].
    + destruct (Z.gtb_spec un (2 ^ 31)); cbn [fst]; lia.
    + destruct (Z.geb_spec un (2 ^ 31)); cbn [fst]; lia.
  - destruct (Ascii.eqb c "-"); cbn [negb andb].
    + destruct (Z.gtb_spec un (2 ^ 31)); cbn [fst]; lia.
    + destruct (Z.geb_spec un (2 ^ 31)); cbn [fst]; lia.
Qed.

Example ParseInt_range_before_syntax :
  ParseInt10_32 "4294967296x" = (2147483647, Some ErrRange)
  /\ ParseInt10_32 "99999999999H5" = (2147483647, Some ErrRange)
  /\ ParseInt10_32 "-4294967296x" = (-2147483648, Some ErrRange)
  /\ ParseInt10_32 "2147483648" = (2147483647, Some ErrRange)
  /\ ParseInt10_32 "-2147483648" = (-2147483648, None)
  /\ ParseInt10_32 "12x" = (0, Some ErrSyntax)
  /\ ParseInt10_32 "1H2" = (0, Some ErrSyntax).
Proof. repeat split. Qed.

(** What [ParseInt] leaves in its value when it returns an error, which
    is all the caller keeps. *)
Lemma ParseInt10_32_error_value (s : string) :
  (snd (ParseInt10_32 s) = Some ErrSyntax -> fst (ParseInt10_32 s) = 0)
  /\ (snd (ParseInt10_32 s) = Some ErrRange ->
      fst (ParseInt10_32 s) = 2 ^ 31 - 1 \/ fst (ParseInt10_32 s) = - 2 ^ 31).
Proof.
  unfold ParseInt10_32. destruct s as [|c s]; [split; [reflexivity | discriminate]|].
  cbv zeta.
  destruct (ParseUint10 32 _) as [un [[]|]];
    [split; [reflexivity | discriminate] | |];
    destruct (Ascii.eqb c "-"); cbn [negb andb];
    repeat match goal with |- context [if ?b then _ else _] => destruct b end;
    cbn [fst snd]; split; intros H; try discriminate H; auto.
Qed.

Lemma string_last (s : string) :
  s <> EmptyString -> exists s' t, s = s' +:+ String t EmptyString.
Proof.
  induction s as [|c s IH]; intros H; [contradiction|].
  destruct s as [|c' s].
  - exists EmptyString, c. reflexivity.
  - destruct IH as (s' & t & E); [discriminate|].
    exists (String c s'), t. rewrite E. reflexivity.
Qed.

Lemma index_from_split (s : string) :
  forall i, index_from s "M" i <> -1 -> 0 <= i ->
  exists ms rest,
    s = ms +:+ String "M" rest /\ ("M"%char ∉ bytes ms)
    /\ index_from s "M" i = i + len ms.
Proof.
  induction s as [|c s IH]; intros i H Hi.
  - cbn in H. contradiction.
  - destruct (ascii_dec c "M") as [->|Hc].
    + exists EmptyString, s. split; [reflexivity|].
      split; [apply not_elem_of_nil|]. rewrite index_from_cons_eq. unfold len. cbn. lia.
    + rewrite index_from_cons_ne in H |- * by exact Hc.
      destruct (IH (i + 1) H) as (ms & rest & -> & Hms & E); [lia|].
      exists (String c ms), rest. split; [reflexivity|]. split.
      * unfold bytes. cbn [list_ascii_of_string]. apply not_elem_of_cons.
        split; [congruence | exact Hms].
      * rewrite E, len_String. lia.
Qed.

(** Every string whose first [M] stands at index 2 or more and is not its
    last byte has the shape the two slice expressions assume. *)
Lemma shaped_of_bounds (d : string) :
  2 <= Index d "M" <= len d - 2 ->
  exists p1 p2 ms ss t,
    d = shaped p1 p2 ms ss t
    /\ p1 <> "M"%char /\ p2 <> "M"%char /\ ("M"%char ∉ bytes ms).
Proof.
  unfold Index. intros H.
  destruct d as [|p1 d]; [cbn in H; lia|].
  destruct (ascii_dec p1 "M") as [->|H1]; [rewrite index_from_cons_eq in H; lia|].
  rewrite index_from_cons_ne in H by exact H1.
  destruct d as [|p2 d]; [cbn in H; lia|].
  destruct (ascii_dec p2 "M") as [->|H2]; [rewrite index_from_cons_eq in H; lia|].
  rewrite index_from_cons_ne in H by exact H2.
  destruct (index_from_split d (0 + 1 + 1)) as (ms & rest & -> & Hms & E); [lia | lia|].
  rewrite E in H. rewrite !len_String, len_app, len_String in H.
  destruct (string_last rest) as (ss & t & ->).
  { intros ->. unfold len in H. cbn in H. lia. }
  exists p1, p2, ms, ss, t. repeat split; assumption.
Qed.

Lemma parseDuration_outside_bounds (d : string) :
  ~ (2 <= Index d "M" <= len d - 2) -> parseDuration d = Panic SliceBounds.
Proof.
  intros H. pose proof (len_nonneg d) as Hlen.
  unfold parseDuration, slice.
  destruct ((0 <=? 2) && (2 <=? Index d "M") && (Index d "M" <=? len d)) eqn:E1;
    [|reflexivity].
  cbn [obind].
  destruct ((0 <=? Index d "M" + 1) && (Index d "M" + 1 <=? len d - 1)
            && (len d - 1 <=? len d)) eqn:E2; [|reflexivity].
  rewrite !andb_true_iff, !Z.leb_le in E1, E2. lia.
Qed.

(** C2, as the claim states it, fails: the string PT3M5 has the
    separator and no terminator, and its parse returns three minutes and
    zero seconds; the song is built and registered. *)
Lemma unterminated_duration_accepted :
  ("S"%char ∉ bytes "PT3M5")
  /\ parseDuration "PT3M5" = Ret (mkDuration 3 0 180 "3:0")
  /\ exists song st',
      NewYouTubeSong (Sample.provider (Response 200 (Sample.video_response "PT3M5")))
                     "bob" "abc" None (Sample.start 0)
      = (Ret (Value song), st')
      /\ duration song = "3:0" /\ queue st' = [song].
Proof.
  split.
  - unfold bytes. cbn [list_ascii_of_string].
    rewrite !not_elem_of_cons. repeat split; try discriminate. apply not_elem_of_nil.
  - split; [reflexivity|]. eexists _, _. split; [vm_compute; reflexivity|].
    split; reflexivity.
Qed.

(** C2, amended. A duration string without the byte [M] makes the parse,
    and with it the construction of the song, panic on a slice bound: no
    error value is returned and nothing is registered.  So does every
    string whose first [M] stands before byte index 2 or is its last byte.
    Every other string is parsed without failure whatever its last byte
    is: that byte is dropped unread, and minutes and seconds are the
    values [ParseInt] returns for the text before and after the [M], the
    error discarded: 0 on a syntax error (the empty field included), the
    nearest int32 bound on a range error. *)
Theorem malformed_duration_behaviour :
  (forall d : string, "M"%char ∉ bytes d -> parseDuration d = Panic SliceBounds)
  /\ (forall (env : Env) (user id : string) (pl : option ptr) (st : State) (jq : JsonQuery),
        http_Get env (videoURL (YOUTUBE_API_KEY env) id) = Response 200 jq ->
        "M"%char ∉ bytes (jqString jq ["items"; "0"; "contentDetails"; "duration"]) ->
        NewYouTubeSong env user id pl st
        = (Panic SliceBounds, requested st (videoURL (YOUTUBE_API_KEY env) id)))
  /\ (forall d : string,
        ~ (2 <= Index d "M" <= len d - 2) -> parseDuration d = Panic SliceBounds)
  /\ (forall d : string,
        2 <= Index d "M" <= len d - 2 ->
        exists p1 p2 ms ss t,
          d = shaped p1 p2 ms ss t
          /\ forall t' : ascii,
              parseDuration (shaped p1 p2 ms ss t')
              = Ret (mkDuration (fst (ParseInt10_32 ms)) (fst (ParseInt10_32 ss))
                       (fst (ParseInt10_32 ms) * 60 + fst (ParseInt10_32 ss))
                       (Itoa (fst (ParseInt10_32 ms)) +:+ ":"
                        +:+ Itoa (fst (ParseInt10_32 ss)))))
  /\ (forall s : string,
        (snd (ParseInt10_32 s) = Some ErrSyntax -> fst (ParseInt10_32 s) = 0)
        /\ (snd (ParseInt10_32 s) = Some ErrRange ->
            fst (ParseInt10_32 s) = 2 ^ 31 - 1 \/ fst (ParseInt10_32 s) = - 2 ^ 31))
  /\ ParseInt10_32 EmptyString = (0, Some ErrSyntax).
Proof.
  split; [exact parseDuration_absent|]. split.
  { intros env user id pl st jq Hget HM.
    rewrite (NewYouTubeSong_run env user id pl st jq Hget).
    cbn zeta. rewrite parseDuration_absent by exact HM. reflexivity. }
  split; [exact parseDuration_outside_bounds|]. split.
  { intros d Hd.
    destruct (shaped_of_bounds d Hd) as (p1 & p2 & ms & ss & t & -> & H1 & H2 & Hms).
    exists p1, p2, ms, ss, t. split; [reflexivity|]. intros t'.
    rewrite parseDuration_shaped by assumption. cbn zeta.
    pose proof (ParseInt10_32_range ms). pose proof (ParseInt10_32_range ss).
    rewrite wrap64_small by lia. reflexivity. }
  split; [exact ParseInt10_32_error_value | reflexivity].
Qed.

Lemma malformed_duration_behaviour_witness :
  parseDuration "PT45S" = Panic SliceBounds
  /\ NewYouTubeSong (Sample.provider (Response 200 (Sample.video_response "PT45S")))
                    "bob" "abc" None (Sample.start 0)
     = (Panic SliceBounds,
        requested (Sample.start 0) (videoURL Sample.key "abc"))
  /\ parseDuration "PT12M" = Panic SliceBounds
  /\ (exists p1 p2 ms ss t,
         "PT3M4294967296x5" = shaped p1 p2 ms ss t
         /\ forall t' : ascii,
             parseDuration (shaped p1 p2 ms ss t')
             = Ret (mkDuration (fst (ParseInt10_32 ms)) (fst (ParseInt10_32 ss))
                      (fst (ParseInt10_32 ms) * 60 + fst (ParseInt10_32 ss))
                      (Itoa (fst (ParseInt10_32 ms)) +:+ ":"
                       +:+ Itoa (fst (ParseInt10_32 ss)))))
  /\ fst (ParseInt10_32 "12x") = 0.
Proof.
  destruct malformed_duration_behaviour as (A & B & C & D & E & _).
  assert (HM : "M"%char ∉ bytes "PT45S").
  { unfold bytes. cbn [list_ascii_of_string].
    rewrite !not_elem_of_cons. repeat split; try discriminate. apply not_elem_of_nil. }
  split; [exact (A "PT45S" HM)|]. split.
  { apply (B (Sample.provider (Response 200 (Sample.video_response "PT45S")))
             "bob" "abc" None (Sample.start 0) (Sample.video_response "PT45S")).
    - reflexivity.
    - exact HM. }
  split.
  { apply (C "PT12M"). vm_compute. intros [_ H]. apply H. reflexivity. }
  split.
  { apply (D "PT3M4294967296x5"). vm_compute. split; discriminate. }
  exact (proj1 (E "12x") eq_refl).
Defined.

(** ** The skip threshold *)

Lemma shr_1_pos (q : positive) (r s : bool) :
  1 < Zpos (digits2_pos q) ->
  exists q' r' s',
    shr_1 (Build_shr_record (Zpos q) r s) = Build_shr_record (Zpos q') r' s'
    /\ Zpos (digits2_pos q') = Zpos (digits2_pos q) - 1.
Proof.
  destruct q as [q|q|]; cbn [digits2_pos shr_1]; intros Hd.
  - exists q, true, (r || s). split; [reflexivity | lia].
  - exists q, false, (r || s). split; [reflexivity | lia].
  - lia.
Qed.

Lemma iter_shr_1_pos (k : positive) :
  forall (q : positive) (r s : bool),
    Zpos k < Zpos (digits2_pos q) ->
    exists q' r' s',
      SpecFloat.iter_pos shr_1 k (Build_shr_record (Zpos q) r s) = Build_shr_record (Zpos q') r' s'
      /\ Zpos (digits2_pos q') = Zpos (digits2_pos q) - Zpos k.
Proof.
  induction k as [k IH|k IH|]; intros q r s Hd; cbn [SpecFloat.iter_pos].
  - destruct (shr_1_pos q r s) as (q1 & r1 & s1 & E1 & D1); [lia|].
    rewrite E1.
    destruct (IH q1 r1 s1) as (q2 & r2 & s2 & E2 & D2); [lia|].
    rewrite E2.
    destruct (IH q2 r2 s2) as (q3 & r3 & s3 & E3 & D3); [lia|].
    rewrite E3. exists q3, r3, s3. split; [reflexivity | lia].
  - destruct (IH q r s) as (q2 & r2 & s2 & E2 & D2); [lia|].
    rewrite E2.
    destruct (IH q2 r2 s2) as (q3 & r3 & s3 & E3 & D3); [lia|].
    rewrite E3. exists q3, r3, s3. split; [reflexivity | lia].
  - apply shr_1_pos. lia.
Qed.

Lemma shr_fexp_pos (m : positive) (e : Z) (l : location) :
  -149 <= e ->
  exists m' r' s' e',
    shr_fexp 24 128 (Zpos m) e l = (Build_shr_record (Zpos m') r' s', e') /\ -149 <= e'.
Proof.
  intros He. unfold shr_fexp, shr, fexp, emin. cbn [Zdigits2].
  set (d := Zpos (digits2_pos m)).
  assert (Hd : 0 < d) by (unfold d; lia).
  destruct (Z.max (d + e - 24) (3 - 128 - 24) - e) as [|k|k] eqn:En.
  - destruct l as [|[]]; cbn; eauto 10.
  - assert (Hk : Zpos k < d) by lia.
    destruct l as [|[]]; cbn [shr_record_of_loc];
    match goal with |- context [SpecFloat.iter_pos shr_1 k (Build_shr_record _ ?r ?s)] =>
      destruct (iter_shr_1_pos k m r s Hk) as (q & r' & s' & E & _); rewrite E
    end; exists q, r', s', (e + Zpos k); (split; [reflexivity | lia]).
  - destruct l as [|[]]; cbn; eauto 10.
Qed.

Lemma round_nearest_even_pos (m : positive) (l : location) :
  exists m', round_nearest_even (Zpos m) l = Zpos m'.
Proof.
  destruct l as [|[]]; cbn [round_nearest_even];
    try destruct (Z.even (Zpos m)); eexists; reflexivity.
Qed.

Lemma binary_round_aux_pos (sx : bool) (m : positive) (e : Z) (l : location) :
  -149 <= e ->
  (exists m' e', binary_round_aux 24 128 sx (Zpos m) e l = S754_finite sx m' e')
  \/ binary_round_aux 24 128 sx (Zpos m) e l = S754_infinity sx.
Proof.
  intros He. unfold binary_round_aux.
  destruct (shr_fexp_pos m e l He) as (m1 & r1 & s1 & e1 & E1 & He1). rewrite E1.
  cbn [shr_m].
  destruct (round_nearest_even_pos m1 (loc_of_shr_record (Build_shr_record (Zpos m1) r1 s1)))
    as (m2 & E2).
  rewrite E2.
  destruct (shr_fexp_pos m2 e1 loc_Exact He1) as (m3 & r3 & s3 & e3 & E3 & _). rewrite E3.
  cbn [shr_m]. destruct (e3 <=? 128 - 24); eauto.
Qed.

Lemma float32_of_int_pos (p : positive) :
  (exists m e, float32_of_int (Zpos p) = S754_finite false m e)
  \/ float32_of_int (Zpos p) = S754_infinity false.
Proof.
  unfold float32_of_int, binary_normalize, binary_round, shl_align, fexp, emin.
  destruct (Z.max (Zpos (digits2_pos p) + 0 - 24) (3 - 128 - 24) - 0) eqn:En;
    apply binary_round_aux_pos; lia.
Qed.

Lemma float32_of_nat_length {A} (l : list A) :
  match l with
  | [] => float32_of_int (Z.of_nat (length l)) = S754_zero false
  | _ :: _ =>
      (exists m e, float32_of_int (Z.of_nat (length l)) = S754_finite false m e)
      \/ float32_of_int (Z.of_nat (length l)) = S754_infinity false
  end.
Proof.
  destruct l as [|x l]; [reflexivity|].
  cbn [length]. rewrite Nat2Z.inj_succ.
  destruct (Z.succ (Z.of_nat (length l))) as [|p|p] eqn:E; try lia.
  apply float32_of_int_pos.
Qed.

(** The ratio test of both [SkipReached] methods with no listener. *)
Lemma ratio_test_no_listener (votes : list string) (ratio : float32) :
  f32_ge (f32_div (float32_of_int (Z.of_nat (length votes))) (float32_of_int 0)) ratio
  = match votes with
    | [] => false
    | _ :: _ => negb (is_nan ratio)
    end.
Proof.
  pose proof (float32_of_nat_length votes) as H.
  change (float32_of_int 0) with (S754_zero false).
  destruct votes as [|v votes].
  - rewrite H. destruct ratio as [| | |[] ? ?]; reflexivity.
  - destruct H as [(m & e & ->)| ->]; destruct ratio as [[]|[]| |[] ? ?]; reflexivity.
Qed.

(** C1, as the claim states it, fails: with one recorded vote and no
    listener the quotient is plus infinity, which is at least the ratio
    0.5, and both methods return true. *)
Lemma SkipReached_no_listener_true :
  YouTubeSong_SkipReached (Sample.song_voted ["alice"]) 0 (Sample.start 0)
  = (Ret true, Sample.start 0)
  /\ YouTubePlaylist_SkipReached (mkPlaylist "PL" "Mix") 0
       (with_playlistSkips (Sample.start 0) {["PL" := ["alice"]]})
     = (Ret true, with_playlistSkips (Sample.start 0) {["PL" := ["alice"]]}).
Proof. split; vm_compute; reflexivity. Qed.

(** C1, amended. With a listener count of 0 neither [SkipReached] method
    panics, and neither changes the state.  Each returns false when no
    skip vote is recorded; with at least one recorded vote each returns
    true, unless the configured ratio is a NaN. *)
Theorem SkipReached_no_listener (s : YouTubeSong) (p : YouTubePlaylist) (st : State) :
  YouTubeSong_SkipReached s 0 st
  = (Ret match skippers s with
         | [] => false
         | _ :: _ => negb (is_nan (SkipRatio (conf st)))
         end, st)
  /\ YouTubePlaylist_SkipReached p 0 st
     = (Ret match skippers_of (playlistSkips st) (playlist_id p) with
            | [] => false
            | _ :: _ => negb (is_nan (PlaylistSkipRatio (conf st)))
            end, st).
Proof.
  split.
  - unfold YouTubeSong_SkipReached, bind, gets, ret.
    rewrite ratio_test_no_listener.
    destruct (skippers s); [reflexivity|].
    destruct (negb _); reflexivity.
  - unfold YouTubePlaylist_SkipReached, bind, gets, ret.
    rewrite ratio_test_no_listener.
    destruct (skippers_of _ _); [reflexivity|].
    destruct (negb _); reflexivity.
Qed.

(** The threshold at work: with the ratio 0.5 and three listeners, one
    vote is not enough and two are. *)
Example SkipReached_three_listeners :
  YouTubeSong_SkipReached (Sample.song_voted ["alice"]) 3 (Sample.start 0)
  = (Ret false, Sample.start 0)
  /\ YouTubeSong_SkipReached (Sample.song_voted ["alice"; "bob"]) 3 (Sample.start 0)
     = (Ret true, Sample.start 0).
Proof. split; vm_compute; reflexivity. Qed.

(** ** Construction of a song *)

Lemma NewYouTubeSong_value (env : Env) (user id : string) (pl : option ptr)
  (st st' : State) (song : YouTubeSong) :
  NewYouTubeSong env user id pl st = (Ret (Value song), st') ->
  playlist song = None
  /\ filename song = id +:+ ".m4a"
  /\ YouTubeSong_ID song = id
  /\ queue st' = queue st ++ [song].
Proof.
  unfold NewYouTubeSong, bind, PerformGetRequest, lift, gets.
  destruct (http_Get env _) as [|code jq]; [discriminate|].
  destruct (code =? 200); [|destruct (code =? 403); discriminate].
  destruct (parseDuration _) as [d|msg]; [|discriminate].
  destruct (withinMaxDuration _ _); [|discriminate].
  cbn. intros H. injection H as <- <-. repeat split.
Qed.

(** C4. When the request for a video succeeds and its duration parses:
    with the maximum set to 0 the song is returned and registered; with
    another maximum, a total above it gives the DurationExceeded error and
    leaves the queue as it was, and a total equal to it gets the song
    returned and registered. *)
Theorem max_duration_policy (env : Env) (user id : string) (pl : option ptr)
  (st : State) (jq : JsonQuery) (d : Duration)
  (Hget : http_Get env (videoURL (YOUTUBE_API_KEY env) id) = Response 200 jq)
  (Hparse : parseDuration (jqString jq ["items"; "0"; "contentDetails"; "duration"]) = Ret d) :
  let st1 := requested st (videoURL (YOUTUBE_API_KEY env) id) in
  let song := single_song user id jq d in
  (MaxSongDuration (conf st) = 0 ->
   NewYouTubeSong env user id pl st = (Ret (Value song), registered st1 song))
  /\ (MaxSongDuration (conf st) <> 0 ->
      MaxSongDuration (conf st) < totalSeconds d ->
      NewYouTubeSong env user id pl st = (Ret (Error DurationExceeded), st1)
      /\ queue st1 = queue st)
  /\ (totalSeconds d = MaxSongDuration (conf st) ->
      NewYouTubeSong env user id pl st = (Ret (Value song), registered st1 song)
      /\ queue (registered st1 song) = queue st ++ [song]).
Proof.
  intros st1 song.
  rewrite (NewYouTubeSong_run env user id pl st jq Hget). cbn zeta.
  rewrite Hparse. fold st1 song. unfold withinMaxDuration.
  split; [|split].
  - intros ->. reflexivity.
  - intros Hne Hlt.
    destruct (Z.eqb_spec (MaxSongDuration (conf st)) 0) as [E|_]; [contradiction|].
    destruct (Z.leb_spec (totalSeconds d) (MaxSongDuration (conf st))) as [Hle|_]; [lia|].
    split; reflexivity.
  - intros ->. rewrite Z.leb_refl, orb_true_r. split; reflexivity.
Qed.

Lemma max_duration_policy_witness :
  NewYouTubeSong (Sample.provider (Response 200 (Sample.video_response "PT5M1S")))
                 "bob" "abc" None (Sample.start 300)
  = (Ret (Error DurationExceeded),
     requested (Sample.start 300) (videoURL Sample.key "abc"))
  /\ NewYouTubeSong (Sample.provider (Response 200 (Sample.video_response "PT5M0S")))
                    "bob" "abc" None (Sample.start 300)
     = (Ret (Value (mkSong "bob" "A" "abc" "abc.m4a" "5:0" "http://t/abc" [] None false)),
        registered (requested (Sample.start 300) (videoURL Sample.key "abc"))
                   (mkSong "bob" "A" "abc" "abc.m4a" "5:0" "http://t/abc" [] None false)).
Proof.
  split.
  - refine (proj1 (proj1 (proj2
      (max_duration_policy
         (Sample.provider (Response 200 (Sample.video_response "PT5M1S")))
         "bob" "abc" None (Sample.start 300) (Sample.video_response "PT5M1S")
         (mkDuration 5 1 301 "5:1") eq_refl eq_refl)) _ _)).
    + discriminate.
    + reflexivity.
  - refine (proj1 (proj2 (proj2
      (max_duration_policy
         (Sample.provider (Response 200 (Sample.video_response "PT5M0S")))
         "bob" "abc" None (Sample.start 300) (Sample.video_response "PT5M0S")
         (mkDuration 5 0 300 "5:0") eq_refl eq_refl)) _)).
    reflexivity.
Defined.

(** ** Expansion of a playlist *)

Lemma advanced_nil (st : State) : advanced st [] [] = st.
Proof. destruct st. unfold advanced. cbn. rewrite !app_nil_r. reflexivity. Qed.

Lemma advanced_step (st : State) (url : string) (songs : list YouTubeSong)
  (urls : list string) :
  advanced (requested st url) songs urls = advanced st songs (url :: urls).
Proof. unfold advanced, requested. cbn. rewrite <- app_assoc. reflexivity. Qed.

Lemma advanced_step_song (st : State) (url : string) (song : YouTubeSong)
  (songs : list YouTubeSong) (urls : list string) :
  advanced (registered (requested st url) song) songs urls
  = advanced st (song :: songs) (url :: urls).
Proof. unfold advanced, registered, requested. cbn. rewrite <- !app_assoc. reflexivity. Qed.

Lemma items_read_length (env : Env) (indices : list Z) :
  forall (apiResponse : JsonQuery) (items : list Item),
    items_read env indices apiResponse = Some items ->
    length items = length indices.
Proof.
  induction indices as [|i rest IH]; intros apiResponse items H; cbn [items_read] in H.
  - injection H as <-. reflexivity.
  - destruct (http_Get env _) as [|code jq]; [discriminate|].
    destruct (code =? 200); [|discriminate].
    destruct (parseDuration _) as [d|msg]; [|discriminate].
    destruct (items_read env rest jq) as [items'|] eqn:E; [|discriminate].
    injection H as <-. cbn [length]. f_equal. exact (IH jq items' E).
Qed.

(** The loop, when no pass leaves it early: the accepted items are
    registered in order and one request is made per item. *)
Lemma playlist_loop_run (env : Env) (user : string) (p : ptr) (indices : list Z) :
  forall (apiResponse : JsonQuery) (st : State) (items : list Item),
    items_read env indices apiResponse = Some items ->
    playlist_loop env user p indices apiResponse st
    = (Ret None,
       advanced st (map (playlist_song user p) (List.filter (accepted (conf st)) items))
                (map (item_url env) items)).
Proof.
  induction indices as [|i rest IH]; intros apiResponse st items H;
    cbn [items_read] in H.
  - injection H as <-. cbn. rewrite advanced_nil. reflexivity.
  - cbn [playlist_loop]. unfold bind at 1. unfold PerformGetRequest.
    destruct (http_Get env _) as [|code jq]; [discriminate|].
    destruct (code =? 200); [|discriminate].
    destruct (parseDuration _) as [d|msg] eqn:Ed; [|discriminate].
    destruct (items_read env rest jq) as [items'|] eqn:E; [|discriminate].
    injection H as <-.
    fold (requested st
            (videoDurationURL (YOUTUBE_API_KEY env)
               (jqString apiResponse
                  ["items"; Itoa i; "snippet"; "resourceId"; "videoId"]))).
    unfold bind, lift, gets.
    cbn [List.filter map]. unfold accepted at 1. cbn [videoDuration conf requested].
    destruct (withinMaxDuration (conf st) (totalSeconds d)).
    + cbn [map]. rewrite <- advanced_step_song.
      unfold AddSong, modify. rewrite (IH jq _ items' E). reflexivity.
    + cbn [map]. rewrite <- advanced_step.
      unfold ret. rewrite (IH jq _ items' E). reflexivity.
Qed.

(** The loop never makes more requests than it has indices. *)
Lemma playlist_loop_requests (env : Env) (user : string) (p : ptr) (indices : list Z) :
  forall (apiResponse : JsonQuery) (st : State),
    exists urls,
      requests (snd (playlist_loop env user p indices apiResponse st)) = requests st ++ urls
      /\ (length urls <= length indices)%nat.
Proof.
  induction indices as [|i rest IH]; intros apiResponse st.
  - exists []. cbn. rewrite app_nil_r. split; [reflexivity | lia].
  - cbn [playlist_loop]. unfold bind at 1. unfold PerformGetRequest.
    set (url := videoDurationURL _ _).
    assert (Hone : forall (r : outcome (option string)) (st' : State),
               requests st' = requests st ++ [url] ->
               exists urls, requests (snd (r, st')) = requests st ++ urls
                            /\ (length urls <= length (i :: rest))%nat).
    { intros r st' E. exists [url]. split; [exact E | cbn; lia]. }
    destruct (http_Get env url) as [|code jq].
    + apply Hone. reflexivity.
    + destruct (code =? 200).
      * unfold bind at 1. unfold lift.
        destruct (parseDuration _) as [d|msg]; [|apply Hone; reflexivity].
        unfold bind at 1. unfold gets. unfold bind at 1.
        set (body := if withinMaxDuration _ _ then _ else _).
        assert (Hb : exists st2, body (requested st url) = (Ret tt, st2)
                                 /\ requests st2 = requests st ++ [url]).
        { unfold body. destruct (withinMaxDuration _ _); eexists; split; reflexivity. }
        fold (requested st url).
        destruct Hb as (st2 & -> & E2).
        destruct (IH jq st2) as (urls & E & L).
        exists (url :: urls). rewrite E, E2, <- app_assoc. split; [reflexivity | cbn; lia].
      * destruct (code =? 403); apply Hone; reflexivity.
Qed.

Lemma clamp_length (n : Z) : (length (seqZ 0 (clampNumVideos n)) <= 25)%nat.
Proof.
  rewrite length_seqZ. unfold clampNumVideos.
  destruct (Z.gtb_spec n 25); lia.
Qed.

(** The whole expansion, when both playlist requests succeed and no pass
    of the loop leaves it early. *)
Lemma NewYouTubePlaylist_run (env : Env) (user id : string) (st : State)
  (jq0 jq1 : JsonQuery) (items : list Item) :
  http_Get env (playlistURL (YOUTUBE_API_KEY env) id) = Response 200 jq0 ->
  http_Get env (playlistItemsURL (YOUTUBE_API_KEY env) id) = Response 200 jq1 ->
  items_read env (seqZ 0 (clampNumVideos (jqInt jq1 ["pageInfo"; "totalResults"]))) jq1
  = Some items ->
  NewYouTubePlaylist env user id st
  = (Ret (Value (length (playlists st))),
     advanced
       (requested
          (allocated (requested st (playlistURL (YOUTUBE_API_KEY env) id))
                     (mkPlaylist id (jqString jq0 ["items"; "0"])))
          (playlistItemsURL (YOUTUBE_API_KEY env) id))
       (map (playlist_song user (length (playlists st)))
            (List.filter (accepted (conf st)) items))
       (map (item_url env) items)).
Proof.
  intros H0 H1 Hitems.
  unfold NewYouTubePlaylist, bind, PerformGetRequest, new_playlist.
  rewrite H0. cbn [Z.eqb Pos.eqb playlists conf queue playlistSkips requests].
  rewrite H1. cbn [Z.eqb Pos.eqb].
  match goal with |- context [playlist_loop _ _ _ _ _ ?s] =>
    rewrite (playlist_loop_run env user (length (playlists st)) _ jq1 s items Hitems)
  end.
  reflexivity.
Qed.

Lemma elem_of_playlist_songs (user : string) (p : ptr) (items : list Item)
  (song : YouTubeSong) :
  song ∈ map (playlist_song user p) items ->
  playlist song = Some p /\ filename song = EmptyString.
Proof.
  intros H. apply list_elem_of_fmap in H as (it & -> & _). split; reflexivity.
Qed.

(** The second pass of the loop reads the video ID from the response to
    the first pass's duration request, not from the listing: on a listing
    of the videos [abc] and [def] the second duration request carries the
    empty ID, and here it ends the expansion with the provider's error. *)
Example second_pass_reads_video_response :
  exists st',
    NewYouTubePlaylist Sample.provider_of_two "bob" "PL2" (Sample.start 0)
    = (Ret (Error InvalidReference), st')
    /\ requests st'
       = [playlistURL Sample.key "PL2"; playlistItemsURL Sample.key "PL2";
          videoDurationURL Sample.key "abc"; videoDurationURL Sample.key EmptyString]
    /\ map YouTubeSong_ID (queue st') = ["abc"].
Proof. eexists. split; [vm_compute; reflexivity|]. split; reflexivity. Qed.

(** A pass-free end of the loop means every pass went through. *)
Lemma playlist_loop_inv (env : Env) (user : string) (p : ptr) (indices : list Z) :
  forall (apiResponse : JsonQuery) (st st' : State),
    playlist_loop env user p indices apiResponse st = (Ret None, st') ->
    exists items, items_read env indices apiResponse = Some items.
Proof.
  induction indices as [|i rest IH]; intros apiResponse st st' H.
  - exists []. reflexivity.
  - cbn [playlist_loop] in H. unfold bind at 1 in H. unfold PerformGetRequest in H.
    cbn [items_read].
    destruct (http_Get env _) as [|code jq]; [discriminate|].
    destruct (code =? 200); [|destruct (code =? 403); discriminate].
    unfold bind at 1 in H. unfold lift in H.
    destruct (parseDuration _) as [d|msg]; [|discriminate].
    unfold bind at 1 in H. unfold gets in H. unfold bind at 1 in H.
    destruct (withinMaxDuration _ _); cbn in H;
      (destruct (IH jq _ st' H) as (items & ->); eexists; reflexivity).
Qed.

Lemma NewYouTubePlaylist_inv (env : Env) (user id : string) (st st' : State) (p : ptr) :
  NewYouTubePlaylist env user id st = (Ret (Value p), st') ->
  exists jq0 jq1 items,
    http_Get env (playlistURL (YOUTUBE_API_KEY env) id) = Response 200 jq0
    /\ http_Get env (playlistItemsURL (YOUTUBE_API_KEY env) id) = Response 200 jq1
    /\ items_read env
         (seqZ 0 (clampNumVideos (jqInt jq1 ["pageInfo"; "totalResults"]))) jq1
       = Some items.
Proof.
  unfold NewYouTubePlaylist, bind, PerformGetRequest, new_playlist.
  destruct (http_Get env (playlistURL _ _)) as [|c0 jq0]; [discriminate|].
  destruct (Z.eqb_spec c0 200) as [->|_]; [|destruct (c0 =? 403); discriminate].
  cbn [playlists conf queue playlistSkips requests].
  destruct (http_Get env (playlistItemsURL _ _)) as [|c1 jq1]; [discriminate|].
  destruct (Z.eqb_spec c1 200) as [->|_]; [|destruct (c1 =? 403); discriminate].
  destruct (playlist_loop _ _ _ _ _ _) as [[[err|]|msg] st2] eqn:E; try discriminate.
  intros _. exists jq0, jq1.
  destruct (playlist_loop_inv _ _ _ _ _ _ _ E) as (items & Hitems).
  exists items. repeat split. exact Hitems.
Qed.

Lemma playlist_loop_frame (env : Env) (user : string) (p : ptr) (indices : list Z) :
  forall (apiResponse : JsonQuery) (st st' : State) (r : outcome (option string)),
    playlist_loop env user p indices apiResponse st = (r, st') ->
    exists added,
      queue st' = queue st ++ added
      /\ Forall (expansion_song user p) added
      /\ (length added <= length indices)%nat
      /\ conf st' = conf st
      /\ playlistSkips st' = playlistSkips st
      /\ playlists st' = playlists st.
Proof.
  induction indices as [|i rest IH]; intros apiResponse st st' r H.
  - injection H as <- <-. exists []. rewrite app_nil_r.
    repeat split; [apply Forall_nil_2 | cbn; lia].
  - cbn [playlist_loop] in H. unfold bind at 1 in H. unfold PerformGetRequest in H.
    set (url := videoDurationURL _ _) in H.
    assert (Hnone : forall r0 : outcome (option string),
               (r0, requested st url) = (r, st') ->
               exists added,
                 queue st' = queue st ++ added
                 /\ Forall (expansion_song user p) added
                 /\ (length added <= length (i :: rest))%nat
                 /\ conf st' = conf st
                 /\ playlistSkips st' = playlistSkips st
                 /\ playlists st' = playlists st).
    { intros r0 E. injection E as <- <-. exists []. cbn. rewrite app_nil_r.
      repeat split; [apply Forall_nil_2 | lia]. }
    destruct (http_Get env url) as [|code jq]; [exact (Hnone _ H)|].
    destruct (code =? 200); [|destruct (code =? 403); exact (Hnone _ H)].
    unfold bind at 1 in H. unfold lift in H.
    destruct (parseDuration _) as [d|msg]; [|exact (Hnone _ H)].
    unfold bind at 1 in H. unfold gets in H. unfold bind at 1 in H.
    cbn [conf] in H.
    destruct (withinMaxDuration (conf st) (totalSeconds d)).
    + unfold AddSong, modify in H.
      destruct (IH _ _ _ _ H) as (added & Q & F & L & C & S & P).
      cbn [queue conf playlistSkips playlists] in Q, C, S, P.
      eexists (_ :: added). rewrite Q, C, S, P, <- app_assoc.
      split; [reflexivity|]. split; [|cbn [length]; repeat split; lia].
      apply Forall_cons. split; [repeat split | exact F].
    + unfold ret in H.
      destruct (IH _ _ _ _ H) as (added & Q & F & L & C & S & P).
      exists added. rewrite Q, C, S, P.
      split; [reflexivity|]. split; [exact F|]. cbn [length]. repeat split. lia.
Qed.

(** One pass that goes through. *)
Lemma playlist_loop_step (env : Env) (user : string) (p : ptr) (i : Z) (rest : list Z)
  (apiResponse : JsonQuery) (st : State) (jq : JsonQuery) (d : Duration) :
  http_Get env
    (videoDurationURL (YOUTUBE_API_KEY env)
       (jqString apiResponse ["items"; Itoa i; "snippet"; "resourceId"; "videoId"]))
  = Response 200 jq ->
  parseDuration (jqString jq ["items"; "0"; "contentDetails"; "duration"]) = Ret d ->
  playlist_loop env user p (i :: rest) apiResponse st
  = playlist_loop env user p rest jq
      (advanced st
         (if withinMaxDuration (conf st) (totalSeconds d)
          then [mkSong user (jqString apiResponse ["items"; Itoa i; "snippet"; "title"])
                  (jqString apiResponse ["items"; Itoa i; "snippet"; "resourceId"; "videoId"])
                  EmptyString (durationString d)
                  (jqString apiResponse
                     ["items"; Itoa i; "snippet"; "thumbnails"; "high"; "url"])
                  [] (Some p) false]
          else [])
         [videoDurationURL (YOUTUBE_API_KEY env)
            (jqString apiResponse ["items"; Itoa i; "snippet"; "resourceId"; "videoId"])]).
Proof.
  intros Hget Hparse.
  cbn [playlist_loop]. unfold bind at 1. unfold PerformGetRequest.
  rewrite Hget. cbn [Z.eqb Pos.eqb].
  unfold bind, lift, gets. rewrite Hparse. cbn [conf].
  destruct (withinMaxDuration (conf st) (totalSeconds d)).
  - rewrite <- advanced_step_song. rewrite advanced_nil. reflexivity.
  - rewrite <- advanced_step. rewrite advanced_nil. reflexivity.
Qed.





(** The expansion behind its two playlist requests is the loop. *)
Lemma NewYouTubePlaylist_via_loop (env : Env) (user id : string) (st : State)
  (jq0 jq1 : JsonQuery) :
  http_Get env (playlistURL (YOUTUBE_API_KEY env) id) = Response 200 jq0 ->
  http_Get env (playlistItemsURL (YOUTUBE_API_KEY env) id) = Response 200 jq1 ->
  NewYouTubePlaylist env user id st
  = let run :=
      playlist_loop env user (length (playlists st))
        (seqZ 0 (clampNumVideos (jqInt jq1 ["pageInfo"; "totalResults"]))) jq1
        (advanced
           (allocated st (mkPlaylist id (jqString jq0 ["items"; "0"])))
           []
           [playlistURL (YOUTUBE_API_KEY env) id;
            playlistItemsURL (YOUTUBE_API_KEY env) id]) in
    (match fst run with
     | Ret None => Ret (Value (length (playlists st)))
     | Ret (Some err) => Ret (Error err)
     | Panic msg => Panic msg
     end, snd run).
Proof.
  intros H0 H1.
  unfold NewYouTubePlaylist, bind, PerformGetRequest, new_playlist.
  rewrite H0. cbn [Z.eqb Pos.eqb playlists conf queue playlistSkips requests].
  rewrite H1. cbn [Z.eqb Pos.eqb]. cbv zeta.
  unfold advanced, allocated. cbn [playlists conf queue playlistSkips requests].
  rewrite app_nil_r, <- app_assoc. cbn [app].
  destruct (playlist_loop _ _ _ _ _ _) as [[[err|]|msg] st2]; reflexivity.
Qed.





(** The requests of an expansion, in every outcome: never more than 25
    behind the two playlist requests. *)
Lemma expansion_requests_bound (env : Env) (user id : string) (st : State) :
  (length (requests (snd (NewYouTubePlaylist env user id st)))
   <= length (requests st) + 2 + 25)%nat.
Proof.
  unfold NewYouTubePlaylist, bind, PerformGetRequest, new_playlist.
  destruct (http_Get env (playlistURL _ _)) as [|c0 jq0];
    [cbn; rewrite length_app; cbn; lia|].
  destruct (c0 =? 200);
    [|destruct (c0 =? 403); cbn; rewrite length_app; cbn; lia].
  cbn [playlists conf queue playlistSkips requests].
  destruct (http_Get env (playlistItemsURL _ _)) as [|c1 jq1];
    [cbn; rewrite !length_app; cbn; lia|].
  destruct (c1 =? 200);
    [|destruct (c1 =? 403); cbn; rewrite !length_app; cbn; lia].
  match goal with |- context [playlist_loop ?e ?u ?p ?ix ?jq ?s] =>
    destruct (playlist_loop_requests e u p ix jq s) as (urls & E & L);
    destruct (playlist_loop e u p ix jq s) as [[[err|]|msg] st2]
  end; unfold ret; cbn [snd] in *; rewrite E; cbn [requests]; rewrite !length_app;
    cbn [length];
    pose proof (clamp_length (jqInt jq1 ["pageInfo"; "totalResults"])); lia.
Qed.

(** C7, as the claim states it, fails: the listing reports 30 videos, the
    first duration request is answered 404, and the expansion ends after
    that one pass, not after 25. *)
Lemma one_pass_of_thirty :
  let env := Sample.provider_reporting 30 (Response 404 (Sample.jq_of [] [])) in
  http_Get env (playlistItemsURL Sample.key "PL")
  = Response 200 (Sample.listing_response 30)
  /\ jqInt (Sample.listing_response 30) ["pageInfo"; "totalResults"] = 30
  /\ fst (NewYouTubePlaylist env "bob" "PL" (Sample.start 0))
     = Ret (Error InvalidReference)
  /\ item_requests (Sample.start 0)
       (snd (NewYouTubePlaylist env "bob" "PL" (Sample.start 0)))
     = [videoDurationURL Sample.key "abc"]
  /\ length (item_requests (Sample.start 0)
               (snd (NewYouTubePlaylist env "bob" "PL" (Sample.start 0)))) <> 25%nat.
Proof.
  cbn zeta. split; [reflexivity|]. split; [reflexivity|].
  split; [vm_compute; reflexivity|]. split; [vm_compute; reflexivity|].
  vm_compute. discriminate.
Qed.

(** C7, amended. An expansion begins at most 25 passes of its loop, and
    no more than the listing reports; when it returns the playlist (no
    pass has ended it early), it has made exactly 25 passes if the
    reported totalResults is above 25, and exactly the reported count
    otherwise (none for a count below zero). *)
Theorem playlist_items_capped (env : Env) (user id : string) (st : State) :
  (length (item_requests st (snd (NewYouTubePlaylist env user id st))) <= 25)%nat
  /\ (forall jq0 jq1,
         http_Get env (playlistURL (YOUTUBE_API_KEY env) id) = Response 200 jq0 ->
         http_Get env (playlistItemsURL (YOUTUBE_API_KEY env) id) = Response 200 jq1 ->
         Z.of_nat (length (item_requests st (snd (NewYouTubePlaylist env user id st))))
         <= Z.max 0 (jqInt jq1 ["pageInfo"; "totalResults"]))
  /\ (forall jq0 jq1 p st',
         http_Get env (playlistURL (YOUTUBE_API_KEY env) id) = Response 200 jq0 ->
         http_Get env (playlistItemsURL (YOUTUBE_API_KEY env) id) = Response 200 jq1 ->
         NewYouTubePlaylist env user id st = (Ret (Value p), st') ->
         (25 < jqInt jq1 ["pageInfo"; "totalResults"] ->
          length (item_requests st st') = 25%nat)
         /\ (jqInt jq1 ["pageInfo"; "totalResults"] <= 25 ->
             Z.of_nat (length (item_requests st st'))
             = Z.max 0 (jqInt jq1 ["pageInfo"; "totalResults"]))).
Proof.
  split; [|split].
  - unfold item_requests. rewrite length_drop.
    pose proof (expansion_requests_bound env user id st). lia.
  - intros jq0 jq1 H0 H1.
    rewrite (NewYouTubePlaylist_via_loop env user id st jq0 jq1 H0 H1). cbv zeta.
    set (st1 := advanced _ [] _).
    destruct (playlist_loop_requests env user (length (playlists st))
                (seqZ 0 (clampNumVideos (jqInt jq1 ["pageInfo"; "totalResults"])))
                jq1 st1) as (urls & E & L).
    cbn [snd]. unfold item_requests. rewrite E. unfold st1. cbn [advanced requests].
    replace (length (requests st) + 2)%nat
      with (length (requests st ++ [playlistURL (YOUTUBE_API_KEY env) id;
                                    playlistItemsURL (YOUTUBE_API_KEY env) id]))
      by (rewrite length_app; reflexivity).
    rewrite drop_app_length. rewrite length_seqZ in L. unfold clampNumVideos in L.
    destruct (Z.gtb_spec (jqInt jq1 ["pageInfo"; "totalResults"]) 25); lia.
  - intros jq0 jq1 p st' H0 H1 Hrun.
    destruct (NewYouTubePlaylist_inv env user id st st' p Hrun)
      as (jq0' & jq1' & items & H0' & H1' & Hitems).
    rewrite H1 in H1'. injection H1' as <-.
    rewrite (NewYouTubePlaylist_run env user id st jq0' jq1 items H0' H1 Hitems) in Hrun.
    injection Hrun as _ <-.
    unfold item_requests. cbn [advanced requested allocated requests].
    rewrite <- !app_assoc. cbn [app].
    change (playlistURL (YOUTUBE_API_KEY env) id
              :: playlistItemsURL (YOUTUBE_API_KEY env) id :: map (item_url env) items)
      with ([playlistURL (YOUTUBE_API_KEY env) id;
             playlistItemsURL (YOUTUBE_API_KEY env) id] ++ map (item_url env) items).
    rewrite app_assoc.
    replace (length (requests st) + 2)%nat
      with (length (requests st ++ [playlistURL (YOUTUBE_API_KEY env) id;
                                    playlistItemsURL (YOUTUBE_API_KEY env) id]))
      by (rewrite length_app; reflexivity).
    rewrite drop_app_length, length_map.
    pose proof (items_read_length env _ jq1 items Hitems) as Hlen.
    rewrite length_seqZ in Hlen. unfold clampNumVideos in Hlen.
    destruct (Z.gtb_spec (jqInt jq1 ["pageInfo"; "totalResults"]) 25); split; lia.
Qed.

Lemma playlist_items_capped_witness :
  exists st',
    NewYouTubePlaylist Sample.uniform "bob" "PL" (Sample.start 0) = (Ret (Value 0%nat), st')
    /\ length (item_requests (Sample.start 0) st') = 25%nat.
Proof.
  assert (Hrun : NewYouTubePlaylist Sample.uniform "bob" "PL" (Sample.start 0)
                 = (Ret (Value 0%nat),
                    snd (NewYouTubePlaylist Sample.uniform "bob" "PL" (Sample.start 0))))
    by (vm_compute; reflexivity).
  exists (snd (NewYouTubePlaylist Sample.uniform "bob" "PL" (Sample.start 0))).
  split; [exact Hrun|].
  refine (proj1 (proj2 (proj2 (playlist_items_capped Sample.uniform "bob" "PL"
                                 (Sample.start 0)))
                   (mkJsonQuery (fun _ => "PT1M1S") (fun _ => 30))
                   (mkJsonQuery (fun _ => "PT1M1S") (fun _ => 30))
                   0%nat _ eq_refl eq_refl Hrun) _).
  reflexivity.
Defined.

(** C9, on the playlist path: the one listed video [abc] is accepted and
    registered, and the registered song has the empty string for file
    name, not [abc.m4a]; the song the single-song path builds for the same
    video does carry [abc.m4a]. *)
Theorem playlist_song_has_no_filename :
  let env := Sample.provider (Response 200 (Sample.video_response "PT1M1S")) in
  (exists st' song,
      NewYouTubePlaylist env "bob" "PL" (Sample.start 0) = (Ret (Value 0%nat), st')
      /\ queue st' = [song]
      /\ YouTubeSong_ID song = "abc"
      /\ YouTubeSong_Filename song = EmptyString
      /\ YouTubeSong_Filename song <> YouTubeSong_ID song +:+ ".m4a")
  /\ (exists st' song,
         NewYouTubeSong env "bob" "abc" None (Sample.start 0) = (Ret (Value song), st')
         /\ queue st' = [song]
         /\ YouTubeSong_Filename song = "abc.m4a").
Proof.
  cbn zeta. split.
  - eexists _, _. split; [vm_compute; reflexivity|].
    split; [reflexivity|]. split; [reflexivity|]. split; [reflexivity | discriminate].
  - eexists _, _. split; [vm_compute; reflexivity|]. split; reflexivity.
Qed.

Lemma Playlist_returns (s : YouTubeSong) (st : State) (v : YouTubePlaylist) :
  YouTubeSong_Playlist s st = (Ret v, st)
  <-> exists p, playlist s = Some p /\ playlists st !! p = Some v.
Proof.
  unfold YouTubeSong_Playlist, bind, gets, lift, ret.
  destruct (playlist s) as [p|].
  - destruct (playlists st !! p) as [w|] eqn:E.
    + split.
      * intros H. injection H as ->. exists p. split; [reflexivity | exact E].
      * intros (q & Hq & Hv). injection Hq as <-. rewrite E in Hv.
        injection Hv as ->. reflexivity.
    + split; [discriminate|].
      intros (q & Hq & Hv). injection Hq as <-. rewrite E in Hv. discriminate.
  - split; [discriminate|]. intros (q & Hq & _). discriminate.
Qed.

(** ** The playlist accessor *)

(** C10. [Playlist()] on a song whose back-reference is nil panics on the
    nil dereference; every song [NewYouTubeSong] returns is such a song,
    whatever playlist argument was passed; the accessor returns exactly
    when the back-reference is a pointer to an allocated playlist, which
    is what every song registered by an expansion holds. *)
Theorem Playlist_accessor_nil :
  (forall (s : YouTubeSong) (st : State),
      playlist s = None -> YouTubeSong_Playlist s st = (Panic NilDereference, st))
  /\ (forall (env : Env) (user id : string) (pl : option ptr) (st st' : State)
             (song : YouTubeSong),
         NewYouTubeSong env user id pl st = (Ret (Value song), st') ->
         forall st'', YouTubeSong_Playlist song st'' = (Panic NilDereference, st''))
  /\ (forall (s : YouTubeSong) (st : State) (v : YouTubePlaylist),
         YouTubeSong_Playlist s st = (Ret v, st)
         <-> exists p, playlist s = Some p /\ playlists st !! p = Some v)
  /\ (forall (env : Env) (user id : string) (st st' : State) (p : ptr) (song : YouTubeSong),
         NewYouTubePlaylist env user id st = (Ret (Value p), st') ->
         song ∈ drop (length (queue st)) (queue st') ->
         exists v, YouTubeSong_Playlist song st' = (Ret v, st') /\ playlist_id v = id).
Proof.
  split; [|split; [|split]].
  - intros s st H. unfold YouTubeSong_Playlist. rewrite H. reflexivity.
  - intros env user id pl st st' song H st''.
    destruct (NewYouTubeSong_value env user id pl st st' song H) as (Hnil & _).
    unfold YouTubeSong_Playlist. rewrite Hnil. reflexivity.
  - intros s st v. exact (Playlist_returns s st v).
  - intros env user id st st' p song Hrun Hsong.
    destruct (NewYouTubePlaylist_inv env user id st st' p Hrun)
      as (jq0 & jq1 & items & H0 & H1 & Hitems).
    rewrite (NewYouTubePlaylist_run env user id st jq0 jq1 items H0 H1 Hitems) in Hrun.
    injection Hrun as <- <-.
    cbn [advanced requested allocated queue] in Hsong.
    rewrite drop_app_length in Hsong.
    apply elem_of_playlist_songs in Hsong as [Hp _].
    exists (mkPlaylist id (jqString jq0 ["items"; "0"])). split; [|reflexivity].
    apply Playlist_returns. exists (length (playlists st)). split; [exact Hp|].
    cbn [advanced requested allocated playlists].
    rewrite lookup_app_r by reflexivity. rewrite Nat.sub_diag. reflexivity.
Qed.

Lemma Playlist_accessor_nil_witness :
  YouTubeSong_Playlist (Sample.song_voted []) (Sample.start 0)
  = (Panic NilDereference, Sample.start 0)
  /\ YouTubeSong_Playlist
       (mkSong "bob" "A" "abc" "abc.m4a" "1:1" "http://t/abc" [] None false)
       (Sample.start 0)
     = (Panic NilDereference, Sample.start 0).
Proof.
  destruct Playlist_accessor_nil as (A & B & _).
  split.
  - exact (A (Sample.song_voted []) (Sample.start 0) eq_refl).
  - refine (B (Sample.provider (Response 200 (Sample.video_response "PT1M1S")))
              "bob" "abc" (Some 7%nat) (Sample.start 0) _ _ _ (Sample.start 0)).
    vm_compute. reflexivity.
Defined.

(** * Further properties *)

(** ** Removing a skip vote *)

Lemma remove_first_absent (username : string) (l : list string) :
  remove_first username l = None <-> username ∉ l.
Proof.
  induction l as [|user rest IH]; cbn [remove_first].
  - split; [intros _; apply not_elem_of_nil | reflexivity].
  - rewrite not_elem_of_cons.
    destruct (String.eqb_spec username user) as [->|Hne].
    + split; [discriminate | intros [H _]; contradiction].
    + destruct (remove_first username rest) as [rest'|].
      * split; [discriminate|]. intros [_ H]. apply IH in H. discriminate.
      * split; [|reflexivity]. intros _. split; [exact Hne | apply IH; reflexivity].
Qed.

Lemma remove_first_present (username : string) (l l' : list string) :
  remove_first username l = Some l' ->
  exists l1 l2, l = l1 ++ username :: l2 /\ (username ∉ l1) /\ l' = l1 ++ l2.
Proof.
  revert l'. induction l as [|user rest IH]; intros l' H; cbn [remove_first] in H.
  - discriminate.
  - destruct (String.eqb_spec username user) as [->|Hne].
    + injection H as <-. exists [], rest. repeat split. apply not_elem_of_nil.
    + destruct (remove_first username rest) as [rest'|]; [|discriminate].
      injection H as <-.
      destruct (IH rest' eq_refl) as (l1 & l2 & -> & Hl1 & ->).
      exists (user :: l1), l2. repeat split.
      apply not_elem_of_cons. split; assumption.
Qed.

Lemma remove_first_split (username : string) (l1 l2 : list string) :
  username ∉ l1 -> remove_first username (l1 ++ username :: l2) = Some (l1 ++ l2).
Proof.
  induction l1 as [|user l1 IH]; intros H.
  - cbn. rewrite String.eqb_refl. reflexivity.
  - apply not_elem_of_cons in H as [Hne H].
    cbn [app remove_first].
    destruct (String.eqb_spec username user) as [E|_]; [contradiction|].
    rewrite (IH H). reflexivity.
Qed.

Lemma remove_first_NoDup (username : string) (l l' : list string) :
  NoDup l -> remove_first username l = Some l' -> NoDup l' /\ username ∉ l'.
Proof.
  intros Hnd H.
  destruct (remove_first_present username l l' H) as (l1 & l2 & -> & Hl1 & ->).
  apply NoDup_app in Hnd as (N1 & N12 & N2).
  apply NoDup_cons in N2 as (Hu & N2).
  split.
  - apply NoDup_app. repeat split; [exact N1 | | exact N2].
    intros x Hx Hx2. apply (N12 x Hx). apply elem_of_cons. right. exact Hx2.
  - rewrite elem_of_app. intros [H1|H2]; contradiction.
Qed.


(** X2. A successful AddSkip followed by RemoveSkip of the same user
    returns nil and gives back the song as it was before the two calls. *)
Theorem AddSkip_RemoveSkip_round_trip (s : YouTubeSong) (username : string)
  (Hnew : username ∉ skippers s) :
  YouTubeSong_AddSkip s username = (set_skippers s (skippers s ++ [username]), None)
  /\ YouTubeSong_RemoveSkip (fst (YouTubeSong_AddSkip s username)) username = (s, None).
Proof.
  assert (E : YouTubeSong_AddSkip s username
              = (set_skippers s (skippers s ++ [username]), None)).
  { unfold YouTubeSong_AddSkip. rewrite has_skipped_elem_of.
    rewrite bool_decide_eq_false_2 by exact Hnew. reflexivity. }
  split; [exact E|]. rewrite E. cbn [fst].
  unfold YouTubeSong_RemoveSkip. cbn [skippers set_skippers].
  rewrite (remove_first_split username (skippers s) [] Hnew), app_nil_r.
  destruct s; reflexivity.
Qed.

Lemma AddSkip_RemoveSkip_round_trip_witness :
  YouTubeSong_RemoveSkip
    (fst (YouTubeSong_AddSkip (Sample.song_voted ["alice"]) "bob")) "bob"
  = (Sample.song_voted ["alice"], None).
Proof.
  refine (proj2 (AddSkip_RemoveSkip_round_trip (Sample.song_voted ["alice"]) "bob" _)).
  cbn [Sample.song_voted skippers]. rewrite not_elem_of_cons.
  split; [discriminate | apply not_elem_of_nil].
Defined.

Lemma song_call_fields (s : YouTubeSong) (c : SongCall) :
  submitter (song_call s c) = submitter s /\ title (song_call s c) = title s
  /\ id (song_call s c) = id s /\ filename (song_call s c) = filename s
  /\ duration (song_call s c) = duration s /\ thumbnail (song_call s c) = thumbnail s
  /\ playlist (song_call s c) = playlist s.
Proof.
  destruct c as [u|u|v]; cbn [song_call].
  - unfold YouTubeSong_AddSkip. destruct (has_skipped u (skippers s)); repeat split.
  - unfold YouTubeSong_RemoveSkip. destruct (remove_first u (skippers s)); repeat split.
  - repeat split.
Qed.

Lemma song_call_NoDup (s : YouTubeSong) (c : SongCall) :
  NoDup (skippers s) -> NoDup (skippers (song_call s c)).
Proof.
  intros Hnd. destruct c as [u|u|v]; cbn [song_call].
  - unfold YouTubeSong_AddSkip. rewrite has_skipped_elem_of.
    destruct (bool_decide_reflect (u ∈ skippers s)) as [Hin|Hout]; [exact Hnd|].
    cbn [fst skippers set_skippers]. apply NoDup_app. repeat split; [exact Hnd | |].
    + intros x Hx Hx'. apply list_elem_of_singleton in Hx'. subst x. contradiction.
    + apply NoDup_singleton.
  - unfold YouTubeSong_RemoveSkip.
    destruct (remove_first u (skippers s)) as [l'|] eqn:E; [|exact Hnd].
    cbn [fst skippers set_skippers]. apply (remove_first_NoDup u _ _ Hnd E).
  - exact Hnd.
Qed.

(** X3. Whatever sequence of AddSkip, RemoveSkip and SetDontSkip calls is
    made on a song whose skippers hold no user twice (as on a new song,
    whose skippers are empty), the skippers never hold a user twice, and
    submitter, title, ID, file name, duration, thumbnail and playlist
    pointer stay what they were. *)
Theorem song_calls_invariant (s : YouTubeSong) (cs : list SongCall)
  (Hnd : NoDup (skippers s)) :
  NoDup (skippers (song_calls s cs))
  /\ submitter (song_calls s cs) = submitter s /\ title (song_calls s cs) = title s
  /\ id (song_calls s cs) = id s /\ filename (song_calls s cs) = filename s
  /\ duration (song_calls s cs) = duration s /\ thumbnail (song_calls s cs) = thumbnail s
  /\ playlist (song_calls s cs) = playlist s.
Proof.
  revert s Hnd. unfold song_calls.
  induction cs as [|c cs IH]; intros s Hnd; cbn [fold_left].
  - repeat split. exact Hnd.
  - destruct (IH (song_call s c) (song_call_NoDup s c Hnd))
      as (N & F1 & F2 & F3 & F4 & F5 & F6 & F7).
    destruct (song_call_fields s c) as (G1 & G2 & G3 & G4 & G5 & G6 & G7).
    repeat split; [exact N | congruence..].
Qed.

Lemma song_calls_invariant_witness :
  NoDup (skippers (song_calls (Sample.song_voted [])
                     [CallAddSkip "alice"; CallAddSkip "alice"; CallSetDontSkip true;
                      CallAddSkip "bob"; CallRemoveSkip "alice"]))
  /\ id (song_calls (Sample.song_voted [])
           [CallAddSkip "alice"; CallAddSkip "alice"; CallSetDontSkip true;
            CallAddSkip "bob"; CallRemoveSkip "alice"]) = "abc".
Proof.
  destruct (song_calls_invariant (Sample.song_voted [])
              [CallAddSkip "alice"; CallAddSkip "alice"; CallSetDontSkip true;
               CallAddSkip "bob"; CallRemoveSkip "alice"] NoDup_nil_2)
    as (N & _ & _ & I & _).
  split; [exact N | exact I].
Defined.

(** ** The shared votes of playlists *)

Lemma playlist_RemoveSkip_run (p : YouTubePlaylist) (username : string) (st : State) :
  YouTubePlaylist_RemoveSkip p username st =
  match remove_first username (skippers_of (playlistSkips st) (playlist_id p)) with
  | Some l =>
      (Ret None, with_playlistSkips st (<[playlist_id p := l]> (playlistSkips st)))
  | None => (Ret (Some NoSuchVote), st)
  end.
Proof.
  unfold YouTubePlaylist_RemoveSkip, bind, gets.
  destruct (remove_first _ _); reflexivity.
Qed.

Lemma with_playlistSkips_same (st : State) : with_playlistSkips st (playlistSkips st) = st.
Proof. destruct st; reflexivity. Qed.

Lemma skippers_of_insert (m : gmap string (list string)) (pid : string)
  (l : list string) :
  skippers_of (<[pid := l]> m) pid = l.
Proof. unfold skippers_of. rewrite lookup_insert_eq. reflexivity. Qed.

(** X4. RemoveSkip on a playlist: when the user is not among the votes
    kept under the playlist's ID, in particular when the map has no entry
    for that ID, the call returns the NoSuchVote error and the state is
    unchanged (no entry is created); otherwise it returns nil and the
    entry loses the first vote equal to the user. *)
Theorem playlist_RemoveSkip_absent_or_first (p : YouTubePlaylist) (username : string)
  (st : State) :
  (playlistSkips st !! playlist_id p = None ->
   YouTubePlaylist_RemoveSkip p username st = (Ret (Some NoSuchVote), st))
  /\ (((username ∉ skippers_of (playlistSkips st) (playlist_id p))
       /\ YouTubePlaylist_RemoveSkip p username st = (Ret (Some NoSuchVote), st))
      \/ (exists l1 l2,
             playlistSkips st !! playlist_id p = Some (l1 ++ username :: l2)
             /\ (username ∉ l1)
             /\ YouTubePlaylist_RemoveSkip p username st
                = (Ret None,
                   with_playlistSkips st (<[playlist_id p := l1 ++ l2]> (playlistSkips st))))).
Proof.
  rewrite playlist_RemoveSkip_run. split.
  - intros Hnone. unfold skippers_of. rewrite Hnone. reflexivity.
  - destruct (remove_first username _) as [l'|] eqn:E.
    + right. destruct (remove_first_present _ _ _ E) as (l1 & l2 & Hl & H1 & ->).
      exists l1, l2. repeat split; [|exact H1].
      unfold skippers_of in Hl.
      destruct (playlistSkips st !! playlist_id p) as [l|]; cbn in Hl.
      * rewrite Hl. reflexivity.
      * destruct l1; discriminate.
    + left. split; [apply remove_first_absent; exact E | reflexivity].
Qed.

Lemma playlist_RemoveSkip_absent_or_first_witness :
  YouTubePlaylist_RemoveSkip (mkPlaylist "PL" "Mix") "alice" (Sample.start 0)
  = (Ret (Some NoSuchVote), Sample.start 0).
Proof.
  apply (proj1 (playlist_RemoveSkip_absent_or_first
                  (mkPlaylist "PL" "Mix") "alice" (Sample.start 0))).
  reflexivity.
Defined.

(** X5. On a playlist, a successful AddSkip followed by RemoveSkip of the
    same user returns nil twice and restores the votes kept under the ID,
    but the ID keeps an entry in the map: when it had none before, it now
    has the empty one; when it had one, the state is back to what it was. *)
Theorem playlist_AddSkip_RemoveSkip_round_trip (p : YouTubePlaylist) (username : string)
  (st : State) (Hnew : username ∉ skippers_of (playlistSkips st) (playlist_id p)) :
  exists st1 st2,
    YouTubePlaylist_AddSkip p username st = (Ret None, st1)
    /\ YouTubePlaylist_RemoveSkip p username st1 = (Ret None, st2)
    /\ st2 = with_playlistSkips st
               (<[playlist_id p := skippers_of (playlistSkips st) (playlist_id p)]>
                  (playlistSkips st))
    /\ playlistSkips st2 !! playlist_id p
       = Some (skippers_of (playlistSkips st) (playlist_id p))
    /\ (is_Some (playlistSkips st !! playlist_id p) -> st2 = st).
Proof.
  eexists _, _. split.
  { rewrite playlist_AddSkip_run.
    rewrite bool_decide_eq_false_2 by exact Hnew. reflexivity. }
  split.
  { rewrite playlist_RemoveSkip_run. cbn [with_playlistSkips playlistSkips].
    rewrite skippers_of_insert.
    rewrite (remove_first_split username _ [] Hnew), app_nil_r.
    unfold with_playlistSkips. cbn. rewrite insert_insert_eq. reflexivity. }
  split; [reflexivity|]. split; [cbn; apply lookup_insert_eq|].
  intros [l Hl]. unfold skippers_of. rewrite Hl. cbn [default].
  rewrite insert_id by exact Hl. apply with_playlistSkips_same.
Qed.

Lemma playlist_AddSkip_RemoveSkip_round_trip_witness :
  exists st1 st2,
    YouTubePlaylist_AddSkip (mkPlaylist "PL" "Mix") "alice" (Sample.start 0)
    = (Ret None, st1)
    /\ YouTubePlaylist_RemoveSkip (mkPlaylist "PL" "Mix") "alice" st1 = (Ret None, st2)
    /\ playlistSkips st2 !! "PL" = Some [].
Proof.
  destruct (playlist_AddSkip_RemoveSkip_round_trip
              (mkPlaylist "PL" "Mix") "alice" (Sample.start 0)) as
    (st1 & st2 & H1 & H2 & _ & H3 & _).
  - apply not_elem_of_nil.
  - exists st1, st2. split; [exact H1|]. split; [exact H2 | exact H3].
Defined.

Lemma playlist_call_run (c : PlaylistCall) (st : State) :
  exists m,
    playlist_call c st = (Ret tt, with_playlistSkips st m)
    /\ (forall other, other <> call_target c -> m !! other = playlistSkips st !! other)
    /\ (map_Forall (fun _ l => NoDup l) (playlistSkips st) ->
        map_Forall (fun _ l => NoDup l) m).
Proof.
  assert (Hvotes : forall pid, map_Forall (fun _ l => NoDup l) (playlistSkips st) ->
                               NoDup (skippers_of (playlistSkips st) pid)).
  { intros pid HF. unfold skippers_of.
    destruct (playlistSkips st !! pid) as [l|] eqn:E; [|apply NoDup_nil_2].
    exact (HF pid l E). }
  destruct c as [p u|p u|p]; cbn [playlist_call call_target].
  - unfold bind at 1. rewrite playlist_AddSkip_run.
    destruct (bool_decide_reflect (u ∈ skippers_of (playlistSkips st) (playlist_id p)))
      as [Hin|Hout].
    + exists (playlistSkips st). rewrite with_playlistSkips_same.
      split; [reflexivity|]. split; [reflexivity | tauto].
    + eexists. split; [reflexivity|]. split.
      * intros other Hne. apply lookup_insert_ne. congruence.
      * intros HF. apply map_Forall_insert_2; [|exact HF].
        apply NoDup_app. repeat split; [apply Hvotes, HF | | apply NoDup_singleton].
        intros x Hx Hx'. apply list_elem_of_singleton in Hx'. subst x. contradiction.
  - unfold bind at 1. rewrite playlist_RemoveSkip_run.
    destruct (remove_first u _) as [l'|] eqn:E.
    + eexists. split; [reflexivity|]. split.
      * intros other Hne. apply lookup_insert_ne. congruence.
      * intros HF. apply map_Forall_insert_2; [|exact HF].
        apply (remove_first_NoDup u _ _ (Hvotes _ HF) E).
    + exists (playlistSkips st). rewrite with_playlistSkips_same.
      split; [reflexivity|]. split; [reflexivity | tauto].
  - eexists. split; [reflexivity|]. split.
    + intros other Hne. apply lookup_delete_ne. congruence.
    + intros HF. apply map_Forall_delete. exact HF.
Qed.

(** X6. A call of AddSkip, RemoveSkip or DeleteSkippers through a playlist
    never panics and touches nothing but the votes kept under that
    playlist's ID: the votes under every other ID, the configuration, the
    queue, the allocated playlists and the request log are unchanged. *)
Theorem playlist_call_frame (c : PlaylistCall) (st : State) :
  exists st',
    playlist_call c st = (Ret tt, st')
    /\ (forall other, other <> call_target c ->
                      playlistSkips st' !! other = playlistSkips st !! other)
    /\ conf st' = conf st /\ queue st' = queue st
    /\ playlists st' = playlists st /\ requests st' = requests st.
Proof.
  destruct (playlist_call_run c st) as (m & Hrun & Hother & _).
  exists (with_playlistSkips st m). split; [exact Hrun|].
  split; [exact Hother|]. repeat split.
Qed.

Lemma playlist_call_frame_witness :
  exists st',
    playlist_call (CallDeleteSkippers (mkPlaylist "PL" "Mix"))
      (with_playlistSkips (Sample.start 0) {["Q" := ["alice"]]})
    = (Ret tt, st')
    /\ playlistSkips st' !! "Q" = Some ["alice"].
Proof.
  destruct (playlist_call_frame (CallDeleteSkippers (mkPlaylist "PL" "Mix"))
              (with_playlistSkips (Sample.start 0) {["Q" := ["alice"]]}))
    as (st' & R & F & _).
  exists st'. split; [exact R|].
  rewrite (F "Q"); [reflexivity | discriminate].
Defined.

(** X7. The votes belong to the ID, not to the playlist value: after a
    successful AddSkip through one playlist, the same user's AddSkip
    through any playlist with the same ID gets the DuplicateVote error,
    and a RemoveSkip through that other playlist withdraws the vote. *)
Theorem playlists_share_votes_by_id (p q : YouTubePlaylist) (username : string)
  (st : State)
  (Hid : playlist_id q = playlist_id p)
  (Hnew : username ∉ skippers_of (playlistSkips st) (playlist_id p)) :
  exists st1 st2,
    YouTubePlaylist_AddSkip p username st = (Ret None, st1)
    /\ YouTubePlaylist_AddSkip q username st1 = (Ret (Some DuplicateVote), st1)
    /\ YouTubePlaylist_RemoveSkip q username st1 = (Ret None, st2)
    /\ skippers_of (playlistSkips st2) (playlist_id p)
       = skippers_of (playlistSkips st) (playlist_id p).
Proof.
  eexists _, _. split.
  { rewrite playlist_AddSkip_run.
    rewrite bool_decide_eq_false_2 by exact Hnew. reflexivity. }
  split.
  { rewrite playlist_AddSkip_run, Hid. cbn [with_playlistSkips playlistSkips].
    rewrite skippers_of_insert.
    rewrite bool_decide_eq_true_2; [reflexivity|].
    apply elem_of_app. right. apply list_elem_of_singleton. reflexivity. }
  split.
  { rewrite playlist_RemoveSkip_run, Hid. cbn [with_playlistSkips playlistSkips].
    rewrite skippers_of_insert.
    rewrite (remove_first_split username _ [] Hnew), app_nil_r. reflexivity. }
  cbn [with_playlistSkips playlistSkips]. apply skippers_of_insert.
Qed.

Lemma playlists_share_votes_by_id_witness :
  exists st1,
    YouTubePlaylist_AddSkip (mkPlaylist "PL" "Mix") "alice" (Sample.start 0)
    = (Ret None, st1)
    /\ YouTubePlaylist_AddSkip (mkPlaylist "PL" "Other title") "alice" st1
       = (Ret (Some DuplicateVote), st1).
Proof.
  destruct (playlists_share_votes_by_id
              (mkPlaylist "PL" "Mix") (mkPlaylist "PL" "Other title") "alice"
              (Sample.start 0) eq_refl) as (st1 & st2 & H1 & H2 & _).
  - apply not_elem_of_nil.
  - exists st1. split; [exact H1 | exact H2].
Defined.

(** X8. Whatever sequence of AddSkip, RemoveSkip and DeleteSkippers calls
    is made through playlists, none panics, no vote list of the map ever
    holds a user twice if none did at the start, and the configuration,
    the queue, the allocated playlists and the request log are unchanged. *)
Theorem playlist_calls_invariant (cs : list PlaylistCall) (st : State)
  (Hnd : map_Forall (fun _ l => NoDup l) (playlistSkips st)) :
  exists st',
    playlist_calls cs st = (Ret tt, st')
    /\ map_Forall (fun _ l => NoDup l) (playlistSkips st')
    /\ conf st' = conf st /\ queue st' = queue st
    /\ playlists st' = playlists st /\ requests st' = requests st.
Proof.
  revert st Hnd. induction cs as [|c cs IH]; intros st Hnd; cbn [playlist_calls].
  - exists st. repeat split. exact Hnd.
  - destruct (playlist_call_run c st) as (m & Hrun & _ & HF).
    unfold bind. rewrite Hrun.
    destruct (IH (with_playlistSkips st m) (HF Hnd)) as (st' & R & N & E1 & E2 & E3 & E4).
    exists st'. split; [exact R|]. split; [exact N|]. repeat split; assumption.
Qed.

Lemma playlist_calls_invariant_witness :
  exists st',
    playlist_calls [CallPlaylistAddSkip (mkPlaylist "PL" "Mix") "alice";
                    CallPlaylistAddSkip (mkPlaylist "PL" "Mix") "alice";
                    CallPlaylistAddSkip (mkPlaylist "PL" "Mix") "bob";
                    CallPlaylistRemoveSkip (mkPlaylist "PL" "Mix") "alice";
                    CallDeleteSkippers (mkPlaylist "Q" "Other")]
                   (Sample.start 0)
    = (Ret tt, st')
    /\ map_Forall (fun _ l => NoDup l) (playlistSkips st').
Proof.
  destruct (playlist_calls_invariant
              [CallPlaylistAddSkip (mkPlaylist "PL" "Mix") "alice";
               CallPlaylistAddSkip (mkPlaylist "PL" "Mix") "alice";
               CallPlaylistAddSkip (mkPlaylist "PL" "Mix") "bob";
               CallPlaylistRemoveSkip (mkPlaylist "PL" "Mix") "alice";
               CallDeleteSkippers (mkPlaylist "Q" "Other")]
              (Sample.start 0)) as (st' & R & N & _).
  - apply map_Forall_empty.
  - exists st'. split; [exact R | exact N].
Defined.

(** ** The threshold with listeners present and no vote *)

Lemma float32_of_int_nonzero (n : Z) :
  n <> 0 ->
  (exists s m e, float32_of_int n = S754_finite s m e)
  \/ (exists s, float32_of_int n = S754_infinity s).
Proof.
  intros Hn. destruct n as [|p|p]; [contradiction| |].
  - destruct (float32_of_int_pos p) as [(m & e & H)|H]; eauto.
  - unfold float32_of_int, binary_normalize, binary_round, shl_align, fexp, emin.
    destruct (Z.max (Zpos (digits2_pos p) + 0 - 24) (3 - 128 - 24) - 0) eqn:En;
      match goal with |- context [binary_round_aux 24 128 true (Zpos ?m) ?e ?l] =>
        destruct (binary_round_aux_pos true m e l) as [(m' & e' & H)|H];
          [lia | rewrite H; eauto | rewrite H; eauto]
      end.
Qed.

Lemma ratio_test_no_vote (channelUsers : Z) (ratio : float32) :
  channelUsers <> 0 ->
  f32_ge (f32_div (float32_of_int 0) (float32_of_int channelUsers)) ratio
  = nonpositive ratio.
Proof.
  intros Hn. change (float32_of_int 0) with (S754_zero false).
  destruct (float32_of_int_nonzero channelUsers Hn) as [(s & m & e & ->)|(s & ->)];
    destruct ratio as [[]|[]| |[] ? ?]; destruct s; reflexivity.
Qed.

(** X9. With at least one listener (indeed any count other than 0) and no
    recorded vote, the quotient is a zero, so either [SkipReached] returns
    true exactly when the configured ratio is at most zero; under a
    positive ratio, or a NaN, it returns false.  For a playlist, an ID
    without entry in the map counts as no vote. *)
Theorem SkipReached_no_vote (s : YouTubeSong) (p : YouTubePlaylist)
  (channelUsers : Z) (st : State) (Husers : channelUsers <> 0) :
  (skippers s = [] ->
   YouTubeSong_SkipReached s channelUsers st
   = (Ret (nonpositive (SkipRatio (conf st))), st))
  /\ (skippers_of (playlistSkips st) (playlist_id p) = [] ->
      YouTubePlaylist_SkipReached p channelUsers st
      = (Ret (nonpositive (PlaylistSkipRatio (conf st))), st))
  /\ (playlistSkips st !! playlist_id p = None ->
      YouTubePlaylist_SkipReached p channelUsers st
      = (Ret (nonpositive (PlaylistSkipRatio (conf st))), st)).
Proof.
  assert (Hp : skippers_of (playlistSkips st) (playlist_id p) = [] ->
               YouTubePlaylist_SkipReached p channelUsers st
               = (Ret (nonpositive (PlaylistSkipRatio (conf st))), st)).
  { intros H. unfold YouTubePlaylist_SkipReached, bind, gets, ret. rewrite H.
    cbn [length Z.of_nat]. rewrite (ratio_test_no_vote _ _ Husers).
    destruct (nonpositive _); reflexivity. }
  split; [|split; [exact Hp|]].
  - intros H. unfold YouTubeSong_SkipReached, bind, gets, ret. rewrite H.
    cbn [length Z.of_nat]. rewrite (ratio_test_no_vote _ _ Husers).
    destruct (nonpositive (SkipRatio (conf st))); reflexivity.
  - intros H. apply Hp. unfold skippers_of. rewrite H. reflexivity.
Qed.

Lemma SkipReached_no_vote_witness :
  YouTubeSong_SkipReached (Sample.song_voted []) 3 (Sample.start 0)
  = (Ret false, Sample.start 0)
  /\ YouTubePlaylist_SkipReached (mkPlaylist "PL" "Mix") 3 (Sample.start 0)
     = (Ret false, Sample.start 0).
Proof.
  destruct (SkipReached_no_vote (Sample.song_voted []) (mkPlaylist "PL" "Mix") 3
              (Sample.start 0)) as (A & _ & C).
  - discriminate.
  - split; [exact (A eq_refl) | exact (C eq_refl)].
Defined.

(** ** The contract of the duration parse *)

(** X10. The duration parse returns exactly when the first [M] of the
    string stands at a byte index of 2 or more and is not the last byte;
    in every other case it panics on a slice bound.  When it returns,
    minutes and seconds are int32 values, the total is exactly
    minutes*60+seconds (the 64-bit arithmetic never wraps), and the
    display string is the two decimals around a colon. *)
Theorem parseDuration_contract (d : string) :
  (2 <= Index d "M" <= len d - 2 ->
   exists r,
     parseDuration d = Ret r
     /\ (- 2 ^ 31) <= minutes r <= 2 ^ 31 - 1
     /\ (- 2 ^ 31) <= seconds r <= 2 ^ 31 - 1
     /\ totalSeconds r = minutes r * 60 + seconds r
     /\ durationString r = Itoa (minutes r) +:+ ":" +:+ Itoa (seconds r))
  /\ (~ (2 <= Index d "M" <= len d - 2) -> parseDuration d = Panic SliceBounds).
Proof.
  pose proof (len_nonneg d) as Hlen.
  unfold parseDuration, slice.
  set (c1 := (0 <=? 2) && (2 <=? Index d "M") && (Index d "M" <=? len d)).
  set (c2 := (0 <=? Index d "M" + 1) && (Index d "M" + 1 <=? len d - 1)
             && (len d - 1 <=? len d)).
  assert (H1 : c1 = true <-> 2 <= Index d "M" <= len d)
    by (unfold c1; rewrite !andb_true_iff, !Z.leb_le; lia).
  assert (H2 : c2 = true <-> 0 <= Index d "M" + 1 <= len d - 1)
    by (unfold c2; rewrite !andb_true_iff, !Z.leb_le; lia).
  split.
  - intros H.
    replace c1 with true by (symmetry; apply H1; lia).
    replace c2 with true by (symmetry; apply H2; lia).
    cbn [obind]. eexists. split; [reflexivity|].
    cbn [minutes seconds totalSeconds durationString].
    match goal with |- _ /\ (_ <= fst (ParseInt10_32 ?b) <= _) /\ _ =>
      pose proof (ParseInt10_32_range b) as Hs end.
    match goal with |- (_ <= fst (ParseInt10_32 ?a) <= _) /\ _ =>
      pose proof (ParseInt10_32_range a) as Hm end.
    split; [exact Hm|]. split; [exact Hs|]. split; [|reflexivity].
    apply wrap64_small. lia.
  - intros H.
    destruct c1 eqn:E1; [|reflexivity]. cbn [obind].
    destruct c2 eqn:E2; [|reflexivity].
    apply proj1 in H1. apply proj1 in H2.
    specialize (H1 eq_refl). specialize (H2 eq_refl). lia.
Qed.

Lemma parseDuration_contract_witness :
  (exists r, parseDuration "PT-5M70S" = Ret r /\ totalSeconds r = minutes r * 60 + seconds r)
  /\ parseDuration "M5S" = Panic SliceBounds.
Proof.
  destruct (parseDuration_contract "PT-5M70S") as [A _].
  destruct (parseDuration_contract "M5S") as [_ B].
  split.
  - destruct A as (r & Hr & _ & _ & Ht & _); [vm_compute; split; discriminate|].
    exists r. split; [exact Hr | exact Ht].
  - apply B. vm_compute. intros [H _]. apply H. reflexivity.
Defined.

(** ** What the constructors do in every outcome *)

(** X11. Whatever [NewYouTubeSong] ends in (a song, an error or a panic),
    it has issued exactly one request, for the video's URL, and has left
    the configuration, the playlist votes and the allocated playlists
    alone; the queue has gained the returned song, and nothing else, when
    a song is returned, and is unchanged otherwise.  The returned song has
    the given ID and submitter, no skipper and a cleared DontSkip flag. *)
Theorem NewYouTubeSong_frame (env : Env) (user id : string) (pl : option ptr)
  (st : State) :
  let r := fst (NewYouTubeSong env user id pl st) in
  let st' := snd (NewYouTubeSong env user id pl st) in
  requests st' = requests st ++ [videoURL (YOUTUBE_API_KEY env) id]
  /\ conf st' = conf st /\ playlistSkips st' = playlistSkips st
  /\ playlists st' = playlists st
  /\ match r with
     | Ret (Value song) =>
         queue st' = queue st ++ [song]
         /\ YouTubeSong_ID song = id /\ YouTubeSong_Submitter song = user
         /\ skippers song = [] /\ YouTubeSong_DontSkip song = false
     | _ => queue st' = queue st
     end.
Proof.
  unfold NewYouTubeSong, bind, PerformGetRequest, lift, gets.
  destruct (http_Get env _) as [|code jq]; [cbn; repeat split|].
  destruct (code =? 200); [|destruct (code =? 403); cbn; repeat split].
  destruct (parseDuration _) as [d|msg]; [|cbn; repeat split].
  cbn [conf]. destruct (withinMaxDuration _ _); cbn; repeat split.
Qed.

(** X12. When the request for the video does not come back with status
    200, [NewYouTubeSong] returns the error of the request (one for a
    transport failure, one for status 403, one for any other status) and
    registers nothing. *)
Theorem NewYouTubeSong_request_failure (env : Env) (user id : string)
  (pl : option ptr) (st : State) :
  let url := videoURL (YOUTUBE_API_KEY env) id in
  (http_Get env url = TransportError ->
   NewYouTubeSong env user id pl st
   = (Ret (Error "An error occurred while receiving HTTP GET response."),
      requested st url))
  /\ (forall code jq,
         http_Get env url = Response code jq -> code <> 200 ->
         NewYouTubeSong env user id pl st
         = (Ret (Error (if code =? 403 then InvalidCredentials else InvalidReference)),
            requested st url))
  /\ queue (requested st url) = queue st.
Proof.
  cbn zeta. split; [|split; [|reflexivity]].
  - intros H. unfold NewYouTubeSong, bind, PerformGetRequest. rewrite H. reflexivity.
  - intros code jq H Hcode. unfold NewYouTubeSong, bind, PerformGetRequest. rewrite H.
    destruct (Z.eqb_spec code 200) as [E|_]; [contradiction|].
    destruct (code =? 403); reflexivity.
Qed.

Lemma NewYouTubeSong_request_failure_witness :
  NewYouTubeSong (Sample.provider (Response 403 (Sample.jq_of [] [])))
                 "bob" "abc" None (Sample.start 0)
  = (Ret (Error InvalidCredentials), requested (Sample.start 0) (videoURL Sample.key "abc"))
  /\ NewYouTubeSong (Sample.provider TransportError) "bob" "abc" None (Sample.start 0)
     = (Ret (Error "An error occurred while receiving HTTP GET response."),
        requested (Sample.start 0) (videoURL Sample.key "abc")).
Proof.
  split.
  - refine (proj1 (proj2 (NewYouTubeSong_request_failure
              (Sample.provider (Response 403 (Sample.jq_of [] [])))
              "bob" "abc" None (Sample.start 0))) 403 (Sample.jq_of [] []) eq_refl _).
    discriminate.
  - exact (proj1 (NewYouTubeSong_request_failure
              (Sample.provider TransportError) "bob" "abc" None (Sample.start 0)) eq_refl).
Defined.

(** X13. Whatever [NewYouTubePlaylist] ends in (the playlist, an error
    part-way or a panic), it leaves the configuration and the playlist
    votes alone and only appends to the queue, at most 25 songs; every
    song it appended has the given submitter, no skipper, a cleared
    DontSkip flag, an empty file name, and a playlist pointer under which
    a playlist with the submitted ID is allocated. *)
Theorem NewYouTubePlaylist_frame (env : Env) (user id : string) (st : State) :
  let st' := snd (NewYouTubePlaylist env user id st) in
  let p := length (playlists st) in
  conf st' = conf st /\ playlistSkips st' = playlistSkips st
  /\ exists added,
      queue st' = queue st ++ added
      /\ (length added <= 25)%nat
      /\ Forall (expansion_song user p) added
      /\ (added = []
          \/ exists v, playlists st' !! p = Some v /\ YouTubePlaylist_ID v = id).
Proof.
  cbn zeta. destruct (NewYouTubePlaylist env user id st) as [r st'] eqn:E. cbn [snd].
  unfold NewYouTubePlaylist, bind, PerformGetRequest, new_playlist, ret in E.
  assert (Hnone : forall (st0 : State) (r0 : outcome (goresult ptr)),
             conf st0 = conf st -> playlistSkips st0 = playlistSkips st ->
             queue st0 = queue st -> (r0, st0) = (r, st') ->
             conf st' = conf st /\ playlistSkips st' = playlistSkips st
             /\ exists added,
                 queue st' = queue st ++ added
                 /\ (length added <= 25)%nat
                 /\ Forall (expansion_song user (length (playlists st))) added
                 /\ (added = []
                     \/ exists v, playlists st' !! length (playlists st) = Some v
                                  /\ YouTubePlaylist_ID v = id)).
  { intros st0 r0 C S Q E0. injection E0 as <- <-.
    split; [exact C|]. split; [exact S|]. exists []. rewrite Q, app_nil_r.
    split; [reflexivity|]. split; [cbn; lia|].
    split; [apply Forall_nil_2 | left; reflexivity]. }
  destruct (http_Get env (playlistURL _ _)) as [|c0 jq0];
    [(refine (Hnone _ _ _ _ _ E); reflexivity)|].
  destruct (c0 =? 200);
    [|destruct (c0 =? 403); (refine (Hnone _ _ _ _ _ E); reflexivity)].
  cbn [playlists conf queue playlistSkips requests] in E.
  destruct (http_Get env (playlistItemsURL _ _)) as [|c1 jq1];
    [(refine (Hnone _ _ _ _ _ E); reflexivity)|].
  destruct (c1 =? 200);
    [|destruct (c1 =? 403); (refine (Hnone _ _ _ _ _ E); reflexivity)].
  destruct (playlist_loop _ _ _ _ _ _) as [r2 st2] eqn:E2.
  destruct (playlist_loop_frame _ _ _ _ _ _ _ _ E2) as (added & Q & F & L & C & S & P).
  cbn [queue conf playlistSkips playlists] in Q, C, S, P.
  assert (Est : st' = st2) by (destruct r2 as [[err|]|msg]; injection E; congruence).
  subst st'.
  split; [exact C|]. split; [exact S|]. exists added. split; [exact Q|].
  split; [pose proof (clamp_length (jqInt jq1 ["pageInfo"; "totalResults"])); lia|].
  split; [exact F|]. right. eexists. rewrite P.
  split; [rewrite lookup_app_r by reflexivity; rewrite Nat.sub_diag; reflexivity
         | reflexivity].
Qed.

(** X14. When the title request or the listing request of an expansion
    does not come back with status 200, the expansion returns the error of
    that request and registers nothing; after a failed listing request the
    playlist has already been allocated, and stays so. *)
Theorem NewYouTubePlaylist_request_failure (env : Env) (user id : string) (st : State) :
  let purl := playlistURL (YOUTUBE_API_KEY env) id in
  let iurl := playlistItemsURL (YOUTUBE_API_KEY env) id in
  (forall code jq,
      http_Get env purl = Response code jq -> code <> 200 ->
      NewYouTubePlaylist env user id st
      = (Ret (Error (if code =? 403 then InvalidCredentials else InvalidReference)),
         requested st purl))
  /\ (forall jq0 code jq,
         http_Get env purl = Response 200 jq0 ->
         http_Get env iurl = Response code jq -> code <> 200 ->
         NewYouTubePlaylist env user id st
         = (Ret (Error (if code =? 403 then InvalidCredentials else InvalidReference)),
            requested (allocated (requested st purl)
                                 (mkPlaylist id (jqString jq0 ["items"; "0"]))) iurl)).
Proof.
  cbn zeta. split.
  - intros code jq H Hcode.
    unfold NewYouTubePlaylist, bind, PerformGetRequest. rewrite H.
    destruct (Z.eqb_spec code 200) as [E|_]; [contradiction|].
    destruct (code =? 403); reflexivity.
  - intros jq0 code jq H0 H Hcode.
    unfold NewYouTubePlaylist, bind, PerformGetRequest, new_playlist. rewrite H0.
    cbn [Z.eqb Pos.eqb playlists conf queue playlistSkips requests]. rewrite H.
    destruct (Z.eqb_spec code 200) as [E|_]; [contradiction|].
    destruct (code =? 403); reflexivity.
Qed.

Lemma NewYouTubePlaylist_request_failure_witness :
  NewYouTubePlaylist (Sample.provider TransportError) "bob" "nowhere" (Sample.start 0)
  = (Ret (Error InvalidReference),
     requested (Sample.start 0) (playlistURL Sample.key "nowhere")).
Proof.
  refine (proj1 (NewYouTubePlaylist_request_failure
                   (Sample.provider TransportError) "bob" "nowhere" (Sample.start 0))
                404 (Sample.jq_of [] []) eq_refl _).
  discriminate.
Defined.

(** X15. An expansion whose listing reports a totalResults of 0 or less
    makes no pass of the loop: it returns the new playlist with no error,
    registers nothing and issues the two playlist requests only. *)
Theorem empty_playlist_expansion (env : Env) (user id : string) (st : State)
  (jq0 jq1 : JsonQuery)
  (Htitle : http_Get env (playlistURL (YOUTUBE_API_KEY env) id) = Response 200 jq0)
  (Hlist : http_Get env (playlistItemsURL (YOUTUBE_API_KEY env) id) = Response 200 jq1)
  (Hnone : jqInt jq1 ["pageInfo"; "totalResults"] <= 0) :
  exists st',
    NewYouTubePlaylist env user id st = (Ret (Value (length (playlists st))), st')
    /\ queue st' = queue st
    /\ playlists st' = playlists st ++ [mkPlaylist id (jqString jq0 ["items"; "0"])]
    /\ requests st'
       = requests st ++ [playlistURL (YOUTUBE_API_KEY env) id;
                         playlistItemsURL (YOUTUBE_API_KEY env) id].
Proof.
  assert (Hitems : items_read env
                     (seqZ 0 (clampNumVideos (jqInt jq1 ["pageInfo"; "totalResults"]))) jq1
                   = Some []).
  { unfold clampNumVideos.
    destruct (Z.gtb_spec (jqInt jq1 ["pageInfo"; "totalResults"]) 25); [lia|].
    rewrite seqZ_nil by exact Hnone. reflexivity. }
  eexists. split.
  - apply (NewYouTubePlaylist_run env user id st jq0 jq1 [] Htitle Hlist Hitems).
  - cbn. rewrite !app_nil_r, <- app_assoc. repeat split.
Qed.

Lemma empty_playlist_expansion_witness :
  exists st',
    NewYouTubePlaylist
      (mkEnv (fun _ => Response 200 (Sample.jq_of [(["items"; "0"], "Mix")] [])) Sample.key)
      "bob" "PL" (Sample.start 0)
    = (Ret (Value 0%nat), st')
    /\ queue st' = [].
Proof.
  destruct (empty_playlist_expansion
              (mkEnv (fun _ => Response 200 (Sample.jq_of [(["items"; "0"], "Mix")] []))
                     Sample.key)
              "bob" "PL" (Sample.start 0)
              (Sample.jq_of [(["items"; "0"], "Mix")] [])
              (Sample.jq_of [(["items"; "0"], "Mix")] []) eq_refl eq_refl)
    as (st' & R & Q & _).
  - cbn. lia.
  - exists st'. split; [exact R | exact Q].
Defined.

(** ** Passes of the loop, one after the other *)

(** The loop over [pre ++ rest], when every pass over [pre] goes through,
    is the loop over [rest] started with the response the last pass over
    [pre] left in [apiResponse]. *)
Lemma playlist_loop_app (env : Env) (user : string) (p : ptr) (pre : list Z) :
  forall (apiResponse : JsonQuery) (items : list Item),
    items_read env pre apiResponse = Some items ->
    exists apiResponse',
      forall (rest : list Z) (st : State),
        playlist_loop env user p (pre ++ rest) apiResponse st
        = playlist_loop env user p rest apiResponse'
            (advanced st (map (playlist_song user p) (List.filter (accepted (conf st)) items))
                      (map (item_url env) items)).
Proof.
  induction pre as [|i pre IH]; intros apiResponse items H; cbn [items_read] in H.
  - injection H as <-. exists apiResponse. intros rest st. cbn.
    rewrite advanced_nil. reflexivity.
  - destruct (http_Get env _) as [|code jq] eqn:Eget; [discriminate|].
    destruct (code =? 200) eqn:Ecode; [|discriminate].
    destruct (parseDuration _) as [d|msg] eqn:Ed; [|discriminate].
    destruct (items_read env pre jq) as [items'|] eqn:E; [|discriminate].
    injection H as <-.
    destruct (IH jq items' E) as (jq' & Hjq').
    exists jq'. intros rest st.
    cbn [app playlist_loop]. unfold bind at 1. unfold PerformGetRequest.
    rewrite Eget, Ecode.
    unfold bind, lift, gets. rewrite Ed.
    cbn [List.filter map]. unfold accepted at 1. cbn [videoDuration conf].
    destruct (withinMaxDuration (conf st) (totalSeconds d)).
    + cbn [map]. rewrite <- advanced_step_song.
      unfold AddSong, modify. rewrite Hjq'. reflexivity.
    + rewrite <- advanced_step.
      unfold ret. rewrite Hjq'. reflexivity.
Qed.

Lemma playlist_loop_first_request (env : Env) (user : string) (p : ptr) (i : Z)
  (rest : list Z) (apiResponse : JsonQuery) (st : State) :
  exists more,
    requests (snd (playlist_loop env user p (i :: rest) apiResponse st))
    = requests st
      ++ videoDurationURL (YOUTUBE_API_KEY env)
           (jqString apiResponse ["items"; Itoa i; "snippet"; "resourceId"; "videoId"])
         :: more.
Proof.
  cbn [playlist_loop]. unfold bind at 1. unfold PerformGetRequest.
  set (url := videoDurationURL _ _).
  destruct (http_Get env url) as [|code jq]; [exists []; reflexivity|].
  destruct (code =? 200); [|destruct (code =? 403); exists []; reflexivity].
  unfold bind at 1. unfold lift.
  destruct (parseDuration _) as [d|msg]; [|exists []; reflexivity].
  unfold bind at 1. unfold gets. unfold bind at 1. cbn [conf].
  destruct (withinMaxDuration (conf st) (totalSeconds d)).
  - unfold AddSong, modify.
    match goal with |- context [playlist_loop env user p rest jq ?s] =>
      destruct (playlist_loop_requests env user p rest jq s) as (urls & E & _) end.
    exists urls. rewrite E. cbn [requests]. rewrite <- app_assoc. reflexivity.
  - unfold ret.
    match goal with |- context [playlist_loop env user p rest jq ?s] =>
      destruct (playlist_loop_requests env user p rest jq s) as (urls & E & _) end.
    exists urls. rewrite E. cbn [requests]. rewrite <- app_assoc. reflexivity.
Qed.

Lemma NewYouTubePlaylist_state (env : Env) (user id : string) (st : State)
  (jq0 jq1 : JsonQuery) :
  http_Get env (playlistURL (YOUTUBE_API_KEY env) id) = Response 200 jq0 ->
  http_Get env (playlistItemsURL (YOUTUBE_API_KEY env) id) = Response 200 jq1 ->
  snd (NewYouTubePlaylist env user id st)
  = snd (playlist_loop env user (length (playlists st))
           (seqZ 0 (clampNumVideos (jqInt jq1 ["pageInfo"; "totalResults"]))) jq1
           (requested
              (allocated (requested st (playlistURL (YOUTUBE_API_KEY env) id))
                         (mkPlaylist id (jqString jq0 ["items"; "0"])))
              (playlistItemsURL (YOUTUBE_API_KEY env) id))).
Proof.
  intros H0 H1.
  unfold NewYouTubePlaylist, bind, PerformGetRequest, new_playlist.
  rewrite H0. cbn [Z.eqb Pos.eqb playlists conf queue playlistSkips requests].
  rewrite H1. cbn [Z.eqb Pos.eqb].
  unfold requested, allocated. cbn [playlists conf queue playlistSkips requests].
  destruct (playlist_loop _ _ _ _ _ _) as [[[err|]|msg] st2]; reflexivity.
Qed.

(** X16. Nothing is rolled back: when the first [k] passes of the loop go
    through, the songs they accepted are in the queue at the end of the
    expansion whatever it ends in, be it the playlist, the error of a
    later pass or a panic. *)
Theorem expansion_keeps_registered (env : Env) (user id : string) (st : State)
  (jq0 jq1 : JsonQuery) (k : Z) (items : list Item)
  (Htitle : http_Get env (playlistURL (YOUTUBE_API_KEY env) id) = Response 200 jq0)
  (Hlist : http_Get env (playlistItemsURL (YOUTUBE_API_KEY env) id) = Response 200 jq1)
  (Hk : 0 <= k <= clampNumVideos (jqInt jq1 ["pageInfo"; "totalResults"]))
  (Hitems : items_read env (seqZ 0 k) jq1 = Some items) :
  exists more,
    queue (snd (NewYouTubePlaylist env user id st))
    = queue st
      ++ map (playlist_song user (length (playlists st)))
             (List.filter (accepted (conf st)) items)
      ++ more.
Proof.
  rewrite (NewYouTubePlaylist_state env user id st jq0 jq1 Htitle Hlist).
  set (n := clampNumVideos _) in *.
  replace n with (k + (n - k)) by lia.
  rewrite seqZ_app by lia.
  destruct (playlist_loop_app env user (length (playlists st)) (seqZ 0 k) jq1 items Hitems)
    as (jq' & Happ).
  rewrite Happ.
  destruct (playlist_loop _ _ _ _ jq' _) as [r2 st2] eqn:E2.
  destruct (playlist_loop_frame _ _ _ _ _ _ _ _ E2) as (more & Q & _).
  exists more. cbn [snd]. rewrite Q. cbn [advanced requested allocated queue conf].
  rewrite <- app_assoc. reflexivity.
Qed.

Lemma expansion_keeps_registered_witness :
  fst (NewYouTubePlaylist Sample.provider_of_two "bob" "PL2" (Sample.start 0))
  = Ret (Error InvalidReference)
  /\ exists more,
      queue (snd (NewYouTubePlaylist Sample.provider_of_two "bob" "PL2" (Sample.start 0)))
      = [] ++ [mkSong "bob" "A" "abc" EmptyString "1:1" EmptyString [] (Some 0%nat) false]
           ++ more.
Proof.
  split; [vm_compute; reflexivity|].
  refine (expansion_keeps_registered Sample.provider_of_two "bob" "PL2" (Sample.start 0)
            Sample.title_response Sample.listing_of_two 1
            [mkItem "A" "abc" EmptyString (mkDuration 1 1 61 "1:1")]
            eq_refl eq_refl _ eq_refl).
  vm_compute. split; discriminate.
Defined.

(** X17. From its second pass on, the loop takes the video ID of its
    duration request from the response to the previous pass's duration
    request, not from the listing: when the listing reports two videos or
    more and the first pass goes through, the second duration request is
    built from item 1 of the first video's response. *)
Theorem second_pass_reads_previous_response (env : Env) (user id : string) (st : State)
  (jq0 jq1 jq' : JsonQuery) (d : Duration)
  (Htitle : http_Get env (playlistURL (YOUTUBE_API_KEY env) id) = Response 200 jq0)
  (Hlist : http_Get env (playlistItemsURL (YOUTUBE_API_KEY env) id) = Response 200 jq1)
  (Htwo : 2 <= jqInt jq1 ["pageInfo"; "totalResults"])
  (Hfirst : http_Get env
              (videoDurationURL (YOUTUBE_API_KEY env)
                 (jqString jq1 ["items"; "0"; "snippet"; "resourceId"; "videoId"]))
            = Response 200 jq')
  (Hparse : parseDuration (jqString jq' ["items"; "0"; "contentDetails"; "duration"])
            = Ret d) :
  exists more,
    requests (snd (NewYouTubePlaylist env user id st))
    = requests st
      ++ [playlistURL (YOUTUBE_API_KEY env) id;
          playlistItemsURL (YOUTUBE_API_KEY env) id;
          videoDurationURL (YOUTUBE_API_KEY env)
            (jqString jq1 ["items"; "0"; "snippet"; "resourceId"; "videoId"]);
          videoDurationURL (YOUTUBE_API_KEY env)
            (jqString jq' ["items"; "1"; "snippet"; "resourceId"; "videoId"])]
      ++ more.
Proof.
  rewrite (NewYouTubePlaylist_state env user id st jq0 jq1 Htitle Hlist).
  set (n := clampNumVideos _).
  assert (Hn : 2 <= n).
  { unfold n, clampNumVideos.
    destruct (Z.gtb_spec (jqInt jq1 ["pageInfo"; "totalResults"]) 25); lia. }
  rewrite (seqZ_cons 0 n) by lia. rewrite (seqZ_cons (Z.succ 0) (Z.pred n)) by lia.
  change (Z.succ 0) with 1.
  rewrite (playlist_loop_step env user (length (playlists st)) 0 _ jq1 _ jq' d Hfirst Hparse).
  match goal with |- context [playlist_loop _ _ _ (1 :: ?rest) jq' ?s] =>
    destruct (playlist_loop_first_request env user (length (playlists st)) 1 rest jq' s)
      as (more & E)
  end.
  change (Itoa 1) with "1" in E.
  exists more. rewrite E. cbn [requests requested allocated advanced].
  rewrite <- !app_assoc. reflexivity.
Qed.

Lemma second_pass_reads_previous_response_witness :
  exists more,
    requests (snd (NewYouTubePlaylist Sample.provider_of_two "bob" "PL2" (Sample.start 0)))
    = [] ++ [playlistURL Sample.key "PL2"; playlistItemsURL Sample.key "PL2";
             videoDurationURL Sample.key "abc"; videoDurationURL Sample.key EmptyString]
         ++ more.
Proof.
  refine (second_pass_reads_previous_response Sample.provider_of_two "bob" "PL2"
            (Sample.start 0) Sample.title_response Sample.listing_of_two
            (Sample.video_response "PT1M1S") (mkDuration 1 1 61 "1:1")
            eq_refl eq_refl _ eq_refl eq_refl).
  vm_compute. discriminate.
Defined.

(** ** Download, Play and Delete *)

#[local] Set Warnings "-clear-no-such-hyp".

Example message_song_sample :
  message_song (mkSong "bob" "A" "abc" "abc.m4a" "1:1" "t" [] None false)
  = nl +:+ tabs 4 +:+ "<table>" +:+ nl
    +:+ tabs 5 +:+ "<tr>" +:+ nl
    +:+ tabs 6 +:+ "<td align=" +:+ dq +:+ "center" +:+ dq +:+ "><img src=" +:+ dq +:+ "t"
    +:+ dq +:+ " width=150 /></td>" +:+ nl
    +:+ tabs 5 +:+ "</tr>" +:+ nl
    +:+ tabs 5 +:+ "<tr>" +:+ nl
    +:+ tabs 6 +:+ "<td align=" +:+ dq +:+ "center" +:+ dq +:+ "><b><a href=" +:+ dq
    +:+ "http://youtu.be/abc" +:+ dq +:+ ">A</a> (1:1)</b></td>" +:+ nl
    +:+ tabs 5 +:+ "</tr>" +:+ nl
    +:+ tabs 5 +:+ "<tr>" +:+ nl
    +:+ tabs 6 +:+ "<td align=" +:+ dq +:+ "center" +:+ dq +:+ ">Added by bob</td>" +:+ nl
    +:+ tabs 5 +:+ "</tr>" +:+ nl
    +:+ tabs 4 +:+ "</table>" +:+ nl +:+ tabs 3.
Proof. vm_compute. reflexivity. Qed.

(** X18. Download, Play and Delete of one song all work on one file: every
    path they stat, play or remove is the home directory, then
    /.mumbledj/songs/, then the song's ID, then .m4a.  For a song built
    by [NewYouTubeSong] that is the directory followed by the song's file
    name; the file name of a playlist's song, which is empty, plays no
    part. *)
Theorem methods_work_on_one_file (host : Host) (sys : System)
  (store : list YouTubePlaylist) (s : YouTubeSong) :
  (forall e path,
      e ∈ fst (YouTubeSong_Download host sys s) ++ fst (YouTubeSong_Play host sys store s)
          ++ fst (YouTubeSong_Delete host sys s) ->
      path ∈ effect_paths e ->
      path = homeDir host +:+ "/.mumbledj/songs/" +:+ YouTubeSong_ID s +:+ ".m4a")
  /\ (forall env user id0 pl st st',
         NewYouTubeSong env user id0 pl st = (Ret (Value s), st') ->
         homeDir host +:+ "/.mumbledj/songs/" +:+ YouTubeSong_ID s +:+ ".m4a"
         = homeDir host +:+ "/.mumbledj/songs/" +:+ YouTubeSong_Filename s).
Proof.
  split.
  - intros e path He Hp.
    unfold YouTubeSong_Download, YouTubeSong_Play, YouTubeSong_Delete in He.
    cbv zeta in He.
    repeat match type of He with
           | context [match ?x with _ => _ end] => destruct x
           end;
      cbn [fst app negb] in He;
      repeat (apply elem_of_cons in He as [->|He];
              [cbn [effect_paths] in Hp;
               first [ apply list_elem_of_singleton in Hp; exact Hp
                     | apply elem_of_nil in Hp; contradiction ] | ]);
      apply elem_of_nil in He; contradiction.
  - intros env user id0 pl st st' H.
    destruct (NewYouTubeSong_value env user id0 pl st st' s H) as (_ & Hf & Hi & _).
    unfold YouTubeSong_Filename. rewrite Hf, Hi. reflexivity.
Qed.

Lemma methods_work_on_one_file_witness :
  "/home/dj/.mumbledj/songs/abc.m4a" = "/home/dj" +:+ "/.mumbledj/songs/" +:+ "abc.m4a".
Proof.
  refine (proj2 (methods_work_on_one_file
                   (mkHost "/home/dj" false)
                   (mkSystem (fun _ => StatFound) (fun _ _ => true) (fun _ => None)
                             (fun _ => true))
                   [] (mkSong "bob" "A" "abc" "abc.m4a" "1:1" "http://t/abc" [] None false))
                (Sample.provider (Response 200 (Sample.video_response "PT1M1S")))
                "bob" "abc" None (Sample.start 0) _ _).
  vm_compute. reflexivity.
Defined.

(** X19. Play panics exactly when the audio stream returns an error, and
    then sends nothing; a nil playlist pointer is tested, not
    dereferenced.  Otherwise it sends one message to the channel, the
    playlist variant (with the playlist's title) exactly when the song
    holds a playlist pointer. *)
Theorem Play_panics_only_on_stream_error (host : Host) (sys : System)
  (store : list YouTubePlaylist) (s : YouTubeSong)
  (Hptr : forall p, playlist s = Some p -> is_Some (store !! p)) :
  let path := homeDir host +:+ "/.mumbledj/songs/" +:+ YouTubeSong_ID s +:+ ".m4a" in
  match audioStream_Play sys path with
  | Some err => YouTubeSong_Play host sys store s = ([EffPlay path], Panic err)
  | None =>
      YouTubeSong_Play host sys store s
      = ([EffPlay path;
          EffSend match playlist s with
                  | None => message_song s
                  | Some p =>
                      message_playlist_song s
                        (default EmptyString (playlist_title <$> store !! p))
                  end false],
         Ret tt)
  end.
Proof.
  cbn zeta. unfold YouTubeSong_Play, YouTubeSong_ID.
  destruct (audioStream_Play sys _) as [err|]; [reflexivity|].
  destruct (playlist s) as [p|]; [|reflexivity].
  destruct (Hptr p eq_refl) as [pl Hpl]. rewrite Hpl. reflexivity.
Qed.

Lemma Play_panics_only_on_stream_error_witness :
  YouTubeSong_Play (mkHost "/home/dj" false)
    (mkSystem (fun _ => StatFound) (fun _ _ => true) (fun _ => None) (fun _ => true))
    [] (Sample.song_voted [])
  = ([EffPlay "/home/dj/.mumbledj/songs/abc.m4a";
      EffSend (message_song (Sample.song_voted [])) false], Ret tt).
Proof.
  refine (Play_panics_only_on_stream_error (mkHost "/home/dj" false)
            (mkSystem (fun _ => StatFound) (fun _ _ => true) (fun _ => None)
                      (fun _ => true))
            [] (Sample.song_voted []) _).
  intros p H. discriminate H.
Defined.

(** X20. Download runs the downloader only when the stat of the song's
    file reports that it does not exist, and returns an error exactly when
    that run fails; any other stat result, an error included, ends in nil
    with nothing run.  It checks the cache size only after a successful
    run with the cache enabled, and removes nothing. *)
Theorem Download_runs_only_when_absent (host : Host) (sys : System) (s : YouTubeSong) :
  let path := homeDir host +:+ "/.mumbledj/songs/" +:+ YouTubeSong_ID s +:+ ".m4a" in
  let args := ["--output"; "~/.mumbledj/songs/" +:+ YouTubeSong_ID s +:+ ".m4a";
               "--format"; "m4a"; "--"; YouTubeSong_ID s] in
  let effects := fst (YouTubeSong_Download host sys s) in
  let err := snd (YouTubeSong_Download host sys s) in
  ((exists name a, EffRun name a ∈ effects) <-> os_Stat sys path = StatNotExist)
  /\ (forall name a, EffRun name a ∈ effects -> name = "youtube-dl" /\ a = args)
  /\ (is_Some err <-> os_Stat sys path = StatNotExist /\ Run sys "youtube-dl" args = false)
  /\ (EffCheckMaximumDirectorySize ∈ effects <->
      os_Stat sys path = StatNotExist /\ Run sys "youtube-dl" args = true
      /\ CacheEnabled host = true)
  /\ (forall p, EffRemove p ∉ effects).
Proof.
  cbn zeta. unfold YouTubeSong_Download, YouTubeSong_ID. cbv zeta.
  destruct (os_Stat sys _); [|destruct (Run sys _ _); [destruct (CacheEnabled host)|]|];
    cbn [fst snd app]; unfold is_Some;
    repeat setoid_rewrite elem_of_cons; repeat setoid_rewrite elem_of_nil;
    repeat split; naive_solver.
Qed.

Lemma Download_runs_only_when_absent_witness :
  snd (YouTubeSong_Download (mkHost "/home/dj" true)
         (mkSystem (fun _ => StatFailed) (fun _ _ => false) (fun _ => None) (fun _ => true))
         (Sample.song_voted [])) = None.
Proof.
  pose proof (proj1 (proj2 (proj2 (Download_runs_only_when_absent
                (mkHost "/home/dj" true)
                (mkSystem (fun _ => StatFailed) (fun _ _ => false) (fun _ => None)
                          (fun _ => true))
                (Sample.song_voted []))))) as [H _].
  destruct (snd (YouTubeSong_Download _ _ _)) as [e|]; [|reflexivity].
  destruct (H (ex_intro _ e eq_refl)) as [Hstat _]. discriminate Hstat.
Defined.

(** X21. Delete does nothing and returns nil when the cache is enabled.
    With the cache disabled it removes the song's file only after a stat
    without error, and returns an error exactly when that removal fails; a
    stat error of any kind ends in nil with nothing removed. *)
Theorem Delete_removes_only_when_found (host : Host) (sys : System) (s : YouTubeSong) :
  let path := homeDir host +:+ "/.mumbledj/songs/" +:+ YouTubeSong_ID s +:+ ".m4a" in
  let effects := fst (YouTubeSong_Delete host sys s) in
  let err := snd (YouTubeSong_Delete host sys s) in
  (CacheEnabled host = true -> effects = [] /\ err = None)
  /\ ((exists p, EffRemove p ∈ effects)
      <-> CacheEnabled host = false /\ os_Stat sys path = StatFound)
  /\ (is_Some err
      <-> CacheEnabled host = false /\ os_Stat sys path = StatFound
          /\ os_Remove sys path = false).
Proof.
  cbn zeta. unfold YouTubeSong_Delete, YouTubeSong_ID. cbv zeta.
  destruct (CacheEnabled host); cbn [negb];
    [|destruct (os_Stat sys _); [destruct (os_Remove sys _)| |]];
    cbn [fst snd]; unfold is_Some;
    repeat setoid_rewrite elem_of_cons; repeat setoid_rewrite elem_of_nil;
    repeat split; naive_solver.
Qed.

Lemma Delete_removes_only_when_found_witness :
  fst (YouTubeSong_Delete (mkHost "/home/dj" true)
         (mkSystem (fun _ => StatFound) (fun _ _ => true) (fun _ => None) (fun _ => true))
         (Sample.song_voted [])) = []
  /\ snd (YouTubeSong_Delete (mkHost "/home/dj" true)
            (mkSystem (fun _ => StatFound) (fun _ _ => true) (fun _ => None) (fun _ => true))
            (Sample.song_voted [])) = None.
Proof.
  exact (proj1 (Delete_removes_only_when_found (mkHost "/home/dj" true)
                  (mkSystem (fun _ => StatFound) (fun _ _ => true) (fun _ => None)
                            (fun _ => true))
                  (Sample.song_voted [])) eq_refl).
Defined.
